(** * yazio-exporter: the concurrent acquisition engine

    A shallow embedding of
      - [utils.fetch_concurrent]              (module [Utils]),
      - [client.YazioClient.get]              (module [Client]),
      - [export_days.discover_month], [auto_discover_months],
        the per-kind fetchers and [fetch_days_concurrent]
                                              (module [ExportDays]),
      - [export_nutrients.fetch_nutrient], [fetch_multiple]
                                              (module [ExportNutrients]),
      - [export_nutrients.fetch_all]          (module [NutrientProfile]),
      - [export_products.fetch_product], [fetch_recipe],
        [fetch_all_concurrent]                (module [ExportProducts]),
      - [utils.date_range], [validate_date], [validate_date_range]
                                              (module [DateUtils]),
      - [export_body.fetch_weight], [fetch_weight_range],
        [filter_null_values], [probe_body_types]
                                              (module [ExportBody]),
    followed by the properties of the specification that concern them
    and by further properties of the modelled code.

    Python dictionaries are [gmap]s; a function that can raise returns a
    [res]; what a function does to the outside world (HTTP requests,
    sleeps, thread-pool activity) is returned next to its result as a
    list of events, oldest first. *)

From Stdlib Require Import ZArith String Ascii List Lia.
From stdpp Require Import base gmap strings list fin_maps fin_sets pretty sorting.

Local Open Scope string_scope.
Local Open Scope list_scope.
Local Open Scope Z_scope.

(** ** Python values shared by the modules *)

(** The exception classes that occur in the modelled code.  [Timeout]
    stands for [requests.Timeout] and its subclasses, [RequestException]
    for every other subclass of [requests.RequestException] (connection
    reset, DNS failure, ...).  All of them are instances of Python's
    [Exception]. *)
Inductive exn : Type :=
| AuthenticationError (message : string)
| APIError (message : string) (status_code : Z) (url : string)
| Timeout (detail : string)
| RequestException (detail : string)
| ValueError (message : string)
| TypeError (message : string)
| AttributeError (message : string)
| KeyError (key : string).

(** The result of a call that either returns or raises. *)
Inductive res (A : Type) : Type :=
| Ret (a : A)
| Raise (e : exn).
Arguments Ret {A} a.
Arguments Raise {A} e.

Definition res_bind {A B} (x : res A) (k : A -> res B) : res B :=
  match x with
  | Ret a => k a
  | Raise e => Raise e
  end.

Declare Scope res_scope.
Delimit Scope res_scope with res.
Notation "x <- c ;; k" := (res_bind c (fun x => k))
  (at level 100, c at next level, right associativity) : res_scope.

(** JSON documents as [response.json()] hands them to the code: [None],
    [bool], a number (kept as its literal), [str], [list] and [dict]
    (items in insertion order, keys distinct). *)
#[local] Set Warnings "-register-all".
Inductive json : Type :=
| JNull
| JBool (b : bool)
| JNumber (literal : string)
| JString (s : string)
| JArray (elems : list json)
| JObject (items : list (string * json)).
#[local] Set Warnings "register-all".

(** [needle in hay] for two [str]. *)
Fixpoint str_contains (needle hay : string) : bool :=
  String.prefix needle hay ||
  match hay with
  | EmptyString => false
  | String _ rest => str_contains needle rest
  end.

(** [d[key]] on the items of a [dict]. *)
Fixpoint dict_lookup (key : string) (items : list (string * json)) : option json :=
  match items with
  | [] => None
  | (k, v) :: rest => if String.eqb k key then Some v else dict_lookup key rest
  end.

(** [key in data]: key membership for a [dict], element membership
    for a [list], substring test for a [str]; [TypeError] for what is
    not a container. *)
Definition py_in (key : string) (data : json) : res bool :=
  match data with
  | JObject items => Ret (bool_decide (is_Some (dict_lookup key items)))
  | JArray elems =>
      Ret (existsb (fun x => match x with JString s => String.eqb s key | _ => false end) elems)
  | JString s => Ret (str_contains key s)
  | JNull | JBool _ | JNumber _ =>
      Raise (TypeError "argument is not iterable")
  end.

(** [data.get(key, default)]: only a [dict] has the method. *)
Definition py_get (data : json) (key : string) (default : json) : res json :=
  match data with
  | JObject items => Ret (match dict_lookup key items with Some v => v | None => default end)
  | _ => Raise (AttributeError "object has no attribute 'get'")
  end.

(** ** utils.py *)

Module Utils.

(** What [future.result()] does for one submitted call: it hands back
    the value [fetch_fn] returned, or re-raises the [Exception]
    [fetch_fn] raised. *)
Inductive outcome (R : Type) : Type :=
| Returned (r : R)
| Raised (e : exn).
Arguments Returned {R} r.
Arguments Raised {R} e.

(** What a call of [fetch_concurrent] does to the thread pool. *)
Inductive pool_event (Item : Type) : Type :=
| PoolStart (max_workers : Z)
| Submit (item : Item)
| PoolShutdown.
Arguments PoolStart {Item} max_workers.
Arguments Submit {Item} item.
Arguments PoolShutdown {Item}.

Section fetch_concurrent.
Context {Item : Type} `{Countable Item}.
Context {R : Type}.

(** One entry of [future_to_item]: the future, given by what its
    [result()] does, and the item it was submitted for. *)
Definition future : Type := Item * outcome R.

(** [{executor.submit(fetch_fn, item): item for item in items}] *)
Definition submit_all (fetch_fn : Item -> outcome R) (items : list Item)
  : list future :=
  map (fun item => (item, fetch_fn item)) items.

(** [as_completed(future_to_item)] yields every future once, in the
    order in which they finish; [order] lists the positions of the
    futures in that order. *)
Definition as_completed (futures : list future) (order : list nat)
  : list future :=
  omap (fun i => futures !! i) order.

(** The body of the [for future in as_completed(...)] loop. *)
Definition record (acc : gmap Item R * gmap Item exn) (f : future)
  : gmap Item R * gmap Item exn :=
  match f.2 with
  | Returned r => (<[f.1 := r]> acc.1, acc.2)
  | Raised e => (acc.1, <[f.1 := e]> acc.2)
  end.

(** [fetch_concurrent(items, fetch_fn, max_workers)].
    [ThreadPoolExecutor(max_workers=n)] raises [ValueError] for
    [n <= 0]; leaving the [with] block joins the pool, so every
    submitted call has run when the function returns. *)
Definition fetch_concurrent (items : list Item) (fetch_fn : Item -> outcome R)
    (max_workers : Z) (order : list nat)
  : res (gmap Item R * gmap Item exn) * list (pool_event Item) :=
  match items with
  | [] => (Ret (∅, ∅), [])
  | _ :: _ =>
      if max_workers <=? 0
      then (Raise (ValueError "max_workers must be greater than 0"), [])
      else
        let future_to_item := submit_all fetch_fn items in
        (Ret (foldl record (∅, ∅) (as_completed future_to_item order)),
         PoolStart max_workers :: map Submit items ++ [PoolShutdown])
  end.

(** The items the pool was asked to run [fetch_fn] on. *)
Definition submitted (trace : list (pool_event Item)) : list Item :=
  omap (fun ev => match ev with Submit item => Some item | _ => None end) trace.
End fetch_concurrent.

End Utils.

(** ** constants.py *)

Module Constants.
Definition BASE_URL : string := "https://yzapi.yazio.com".
Definition API_VERSION : string := "v15".
Definition REQUEST_TIMEOUT : Z := 30.
Definition MAX_RETRIES : Z := 3.
Definition DEFAULT_WORKERS : Z := 10.
Definition NUTRIENT_WORKERS : Z := 5.
End Constants.

(** ** client.py *)

Module Client.
Import Constants.

(** A [requests.Response], as far as the code looks at it: the status
    code, and the document [response.json()] returns ([None] when that
    call raises its [ValueError]). *)
Record response : Type := Response {
  status_code : Z;
  body : option json;
}.

(** [response.ok]: false exactly for the statuses [raise_for_status]
    rejects, 400 to 599. *)
Definition ok (r : response) : bool :=
  negb ((400 <=? status_code r) && (status_code r <? 600)).

(** [response.json()] *)
Definition json_of (r : response) : res json :=
  match body r with
  | Some data => Ret data
  | None => Raise (ValueError "response body is not JSON")
  end.

(** What one [session.get(url, timeout=...)] does. *)
Inductive sent : Type :=
| Responded (r : response)
| Failed (e : exn).

(** The client: its two URL parts, and the session together with the
    service behind it, given by what the [attempt]-th request of a call
    of [get] for [url] does. *)
Record YazioClient : Type := {
  base_url : string;
  api_version : string;
  session_get : string -> Z -> sent;
}.

(** What a call of [get] does on the wire and to the clock. *)
Inductive io_event : Type :=
| HttpGet (url : string)
| Sleep (seconds : Z).

Definition get_url (self : YazioClient) (endpoint : string) : string :=
  let endpoint :=
    match endpoint with
    | String "/" rest => rest
    | _ => endpoint
    end in
  base_url self +:+ "/" +:+ api_version self +:+ "/" +:+ endpoint.

Definition http_error_message (status : Z) (url : string) : string :=
  "HTTP " +:+ pretty status +:+ " error for URL: " +:+ url.

Definition token_expired_message : string :=
  "HTTP 401 Unauthorized: Token may have expired. " +:+
  "Please run 'yazio-exporter login' again to refresh your authentication.".

(** The 401 branch of [get]: the exception that leaves it.  A body that
    is not JSON is caught by the inner [except (ValueError, KeyError)];
    the [TypeError] of [in] on a body that is no container is caught by
    no handler of [get]. *)
Definition unauthorized (url : string) (r : response) : exn :=
  match json_of r with
  | Raise _ => AuthenticationError token_expired_message
  | Ret error_data =>
      match py_in "error" error_data with
      | Raise e => e
      | Ret true => AuthenticationError token_expired_message
      | Ret false =>
          match py_in "message" error_data with
          | Raise e => e
          | Ret true => AuthenticationError token_expired_message
          | Ret false => AuthenticationError (http_error_message 401 url)
          end
      end
  end.

(** The [for attempt in range(max_retries)] loop of [get], over the
    attempts still to make.  Falling off the loop returns [None]. *)
Fixpoint get_attempts (self : YazioClient) (url : string) (max_retries : Z)
    (attempts : list Z) : res (option response) * list io_event :=
  match attempts with
  | [] => (Ret None, [])
  | attempt :: rest =>
      let backoff_or_raise (last_error : exn) :=
        if attempt <? max_retries - 1
        then
          let backoff_time := 2 ^ attempt in
          let '(result, trace) := get_attempts self url max_retries rest in
          (result, HttpGet url :: Sleep backoff_time :: trace)
        else (Raise last_error, [HttpGet url]) in
      match session_get self url attempt with
      | Responded response =>
          if status_code response =? 401
          then (Raise (unauthorized url response), [HttpGet url])
          else if (500 <=? status_code response) && (status_code response <? 600)
          then
            backoff_or_raise
              (APIError (http_error_message (status_code response) url)
                        (status_code response) url)
          else if negb (ok response)
          then
            (Raise (APIError (http_error_message (status_code response) url)
                             (status_code response) url),
             [HttpGet url])
          else (Ret (Some response), [HttpGet url])
      | Failed e =>
          match e with
          | Timeout _ => (Raise e, [HttpGet url])
          | AuthenticationError _ | APIError _ _ _ => (Raise e, [HttpGet url])
          | RequestException _ => backoff_or_raise e
          | _ => (Raise e, [HttpGet url])
          end
      end
  end.

(** [YazioClient.get(endpoint, max_retries)] *)
Definition get (self : YazioClient) (endpoint : string) (max_retries : Z)
  : res (option response) * list io_event :=
  let url := get_url self endpoint in
  get_attempts self url max_retries (seqZ 0 max_retries).

(** The requests of a trace, and its sleeps. *)
Definition requests (trace : list io_event) : list string :=
  omap (fun ev => match ev with HttpGet url => Some url | _ => None end) trace.

Definition sleeps (trace : list io_event) : list Z :=
  omap (fun ev => match ev with Sleep s => Some s | _ => None end) trace.

(** [response.json()] on what [get] handed back; [None] has no such
    method. *)
Definition json_method (response : option response) : res json :=
  match response with
  | Some r => json_of r
  | None => Raise (AttributeError "'NoneType' object has no attribute 'json'")
  end.

End Client.

(** ** export_days.py *)

Module ExportDays.
Import Constants Client Utils.

(** *** The calendar, as [datetime.date] and [calendar.monthrange] have it *)

Record date : Type := Date {
  year : Z;
  month : Z;
  day : Z;
}.

(** [calendar.isleap] *)
Definition isleap (year : Z) : bool :=
  (year mod 4 =? 0) && (negb (year mod 100 =? 0) || (year mod 400 =? 0)).

(** [calendar.mdays] *)
Definition mdays : list Z := [0; 31; 28; 31; 30; 31; 30; 31; 31; 30; 31; 30; 31].

(** [calendar.monthrange(year, month)[1]], for a month from 1 to 12. *)
Definition monthrange_days (year month : Z) : Z :=
  nth (Z.to_nat month) mdays 0 + (if (month =? 2) && isleap year then 1 else 0).

(** [date(year, month, day)] *)
Definition new_date (year month day : Z) : res date :=
  if negb ((1 <=? year) && (year <=? 9999))
  then Raise (ValueError "year is out of range")
  else if negb ((1 <=? month) && (month <=? 12))
  then Raise (ValueError "month must be in 1..12")
  else if negb ((1 <=? day) && (day <=? monthrange_days year month))
  then Raise (ValueError "day is out of range for month")
  else Ret (Date year month day).

(** One decimal digit, and a number zero-padded to [width] digits. *)
Definition digit (n : Z) : ascii := ascii_of_nat (48 + Z.to_nat (n mod 10)).

Fixpoint zero_padded (width : nat) (n : Z) : string :=
  match width with
  | O => ""
  | S width => zero_padded width (n / 10) +:+ String (digit n) ""
  end.

(** [d.strftime("%Y-%m-%d")] *)
Definition strftime_ymd (d : date) : string :=
  zero_padded 4 (year d) +:+ "-" +:+ zero_padded 2 (month d) +:+ "-" +:+
  zero_padded 2 (day d).

Definition discovery_endpoint (start_date end_date : string) : string :=
  "/user/consumed-items/nutrients-daily?start=" +:+ start_date +:+
  "&end=" +:+ end_date.

(** The dates of a discovery response: [entry["date"]] of every entry
    that is a [dict] with that key; nothing when the document is not a
    list. *)
Definition extract_dates (data : json) : list json :=
  match data with
  | JArray entries =>
      omap (fun entry =>
              match entry with
              | JObject items => dict_lookup "date" items
              | _ => None
              end) entries
  | _ => []
  end.

(** [discover_month(client, year, month)], with the endpoints it passed
    to [client.get]. *)
Definition discover_month (client : YazioClient) (year month : Z)
  : res (list json) * list string :=
  match new_date year month 1 with
  | Raise e => (Raise e, [])
  | Ret first_day =>
      let last_day_num := monthrange_days year month in
      match new_date year month last_day_num with
      | Raise e => (Raise e, [])
      | Ret last_day =>
          let start_date := strftime_ymd first_day in
          let end_date := strftime_ymd last_day in
          let endpoint := discovery_endpoint start_date end_date in
          ((response <- (get client endpoint MAX_RETRIES).1 ;;
            data <- json_method response ;;
            Ret (extract_dates data))%res,
           [endpoint])
      end
  end.

(** [(a, b) <= (c, d)] on tuples of integers. *)
Definition tuple_le (x y : Z * Z) : bool :=
  (x.1 <? y.1) || ((x.1 =? y.1) && (x.2 <=? y.2)).

(** The [while] loop of [auto_discover_months]; [None] when [fuel]
    iterations did not reach its end. *)
Fixpoint scan (fuel : nat) (client : YazioClient) (today : date)
    (current_year current_month : Z) (all_dates : list json)
  : option (res (list json) * list string) :=
  match fuel with
  | O => None
  | S fuel =>
      if tuple_le (current_year, current_month) (year today, month today)
      then
        match discover_month client current_year current_month with
        | (Raise e, queried) => Some (Raise e, queried)
        | (Ret dates, queried) =>
            let all_dates :=
              match dates with
              | [] => all_dates
              | _ :: _ => all_dates ++ dates
              end in
            let current_month := current_month + 1 in
            let '(current_year, current_month) :=
              if current_month >? 12
              then (current_year + 1, 1)
              else (current_year, current_month) in
            match scan fuel client today current_year current_month all_dates with
            | Some (result, later) => Some (result, queried ++ later)
            | None => None
            end
        end
      else Some (Ret all_dates, [])
  end.

(** The months from [(start_year, start_month)] through the month of
    [today], counted on the line of months [12 * year + month]. *)
Definition months_to_scan (today : date) (start_year start_month : Z) : Z :=
  (12 * year today + month today) - (12 * start_year + start_month) + 1.

(** [auto_discover_months(client, start_year, start_month)], with
    [today] for [date.today()].  The loop is given one iteration more
    than there are months to scan, for the test that ends it. *)
Definition auto_discover_months (client : YazioClient) (today : date)
    (start_year start_month : Z) : option (res (list json) * list string) :=
  scan (S (Z.to_nat (months_to_scan today start_year start_month)))
       client today start_year start_month [].

(** *** The per-kind fetchers and the models they build (models.py) *)

Inductive day_data : Type :=
| ConsumedItems (products recipe_portions simple_products : json)
| Exercises (training custom_training activity : json)
| DailySummary (meals activity_energy steps water_intake goals units : json)
| Goals (data : json)
| WaterIntake (water_intake gateway source : json).

Definition fetch_consumed (client : YazioClient) (date : string) : res day_data :=
  (response <- (get client ("/user/consumed-items?date=" +:+ date) MAX_RETRIES).1 ;;
   data <- json_method response ;;
   products <- py_get data "products" (JArray []) ;;
   recipe_portions <- py_get data "recipe_portions" (JArray []) ;;
   simple_products <- py_get data "simple_products" (JArray []) ;;
   Ret (ConsumedItems products recipe_portions simple_products))%res.

Definition fetch_exercises (client : YazioClient) (date : string) : res day_data :=
  (response <- (get client ("/user/exercises?date=" +:+ date) MAX_RETRIES).1 ;;
   data <- json_method response ;;
   training <- py_get data "training" (JArray []) ;;
   custom_training <- py_get data "custom_training" (JArray []) ;;
   activity <- py_get data "activity" JNull ;;
   Ret (Exercises training custom_training activity))%res.

Definition fetch_daily_summary (client : YazioClient) (date : string) : res day_data :=
  (response <- (get client ("/user/widgets/daily-summary?date=" +:+ date) MAX_RETRIES).1 ;;
   data <- json_method response ;;
   meals <- py_get data "meals" (JObject []) ;;
   activity_energy <- py_get data "activity_energy" JNull ;;
   steps <- py_get data "steps" JNull ;;
   water_intake <- py_get data "water_intake" JNull ;;
   goals <- py_get data "goals" (JObject []) ;;
   units <- py_get data "units" (JObject []) ;;
   Ret (DailySummary meals activity_energy steps water_intake goals units))%res.

Definition fetch_goals (client : YazioClient) (date : string) : res day_data :=
  (response <- (get client ("/user/goals?date=" +:+ date) MAX_RETRIES).1 ;;
   data <- json_method response ;;
   Ret (Goals data))%res.

Definition fetch_water (client : YazioClient) (date : string) : res day_data :=
  (response <- (get client ("/user/water-intake?date=" +:+ date) MAX_RETRIES).1 ;;
   data <- json_method response ;;
   water_intake <- py_get data "water_intake" (JNumber "0") ;;
   gateway <- py_get data "gateway" JNull ;;
   source <- py_get data "source" JNull ;;
   Ret (WaterIntake water_intake gateway source))%res.

(** *** fetch_days_concurrent *)

(** The registry of data types, in the order of the [dict] literal. *)
Definition fetch_functions : list (string * (YazioClient -> string -> res day_data)) :=
  [ ("consumed", fetch_consumed);
    ("goals", fetch_goals);
    ("exercises", fetch_exercises);
    ("water", fetch_water);
    ("daily_summary", fetch_daily_summary);
    ("summary", fetch_daily_summary) ].

(** [fetch_functions[dtype]] *)
Fixpoint registry_lookup {A} (dtype : string) (registry : list (string * A)) : option A :=
  match registry with
  | [] => None
  | (k, f) :: rest => if String.eqb k dtype then Some f else registry_lookup dtype rest
  end.

(** [list(fetch_functions.keys())] inside the f-string. *)
Definition registry_keys_repr : string :=
  "['consumed', 'goals', 'exercises', 'water', 'daily_summary', 'summary']".

Definition unknown_data_type (dtype : string) : exn :=
  ValueError ("Unknown data type: " +:+ dtype +:+ ". Must be one of " +:+
              registry_keys_repr).

(** The validation loop: the first unknown data type raises. *)
Fixpoint validate (data_types : list string) : res unit :=
  match data_types with
  | [] => Ret tt
  | dtype :: rest =>
      match registry_lookup dtype fetch_functions with
      | None => Raise (unknown_data_type dtype)
      | Some _ => validate rest
      end
  end.

(** What a cell of the result holds: the model a fetcher built, or the
    exception object its task ended with. *)
Inductive cell : Type :=
| Value (v : day_data)
| Error (e : exn).

(** [[(d, dtype) for d in dates for dtype in data_types]] *)
Definition make_tasks (dates data_types : list string) : list (string * string) :=
  d ← dates; dtype ← data_types; [(d, dtype)].

(** The closure [_fetch_task], as the pool sees it. *)
Definition _fetch_task (client : YazioClient) (task : string * string)
  : outcome day_data :=
  let '(d, dtype) := task in
  match registry_lookup dtype fetch_functions with
  | None => Raised (KeyError dtype)
  | Some fetch =>
      match fetch client d with
      | Ret v => Returned v
      | Raise e => Raised e
      end
  end.

(** [results[d][dtype] = value]; [results[d]] raises [KeyError] for a
    date that is no key. *)
Definition store (results : res (gmap string (gmap string cell)))
    (entry : (string * string) * cell)
  : res (gmap string (gmap string cell)) :=
  (results <- results ;;
   let '((d, dtype), value) := entry in
   match results !! d with
   | None => Raise (KeyError d)
   | Some of_date => Ret (<[d := <[dtype := value]> of_date]> results)
   end)%res.

(** The two regrouping loops, over the items of the two maps. *)
Definition regroup (results : gmap string (gmap string cell))
    (successes : gmap (string * string) day_data)
    (errors : gmap (string * string) exn)
  : res (gmap string (gmap string cell)) :=
  let results :=
    foldl store (Ret results) (prod_map id Value <$> map_to_list successes) in
  foldl store results (prod_map id Error <$> map_to_list errors).

(** [fetch_days_concurrent(client, dates, data_types, max_workers)],
    with what it did to the thread pool. *)
Definition fetch_days_concurrent (client : YazioClient)
    (dates data_types : list string) (max_workers : Z) (order : list nat)
  : res (gmap string (gmap string cell)) * list (pool_event (string * string)) :=
  let results : gmap string (gmap string cell) :=
    list_to_map ((fun date => (date, ∅)) <$> dates) in
  match validate data_types with
  | Raise e => (Raise e, [])
  | Ret _ =>
      let tasks := make_tasks dates data_types in
      match fetch_concurrent tasks (_fetch_task client) max_workers order with
      | (Raise e, trace) => (Raise e, trace)
      | (Ret (successes, errors), trace) =>
          (regroup results successes errors, trace)
      end
  end.

End ExportDays.

(** ** export_nutrients.py *)

Module ExportNutrients.
Import Constants Client Utils.

(** A [dict] of one nutrient: date to value, in the order of the
    response. *)
Definition nutrient_values : Type := list (string * json).

Definition nutrient_endpoint (nutrient_id start end_ : string) : string :=
  "/user/consumed-items/specific-nutrient-daily?start=" +:+ start +:+
  "&end=" +:+ end_ +:+ "&nutrient=" +:+ nutrient_id.

Definition is_none (v : json) : bool :=
  match v with
  | JNull => true
  | _ => false
  end.

(** [fetch_nutrient(client, nutrient_id, start, end)] *)
Definition fetch_nutrient (client : YazioClient) (nutrient_id start end_ : string)
  : res nutrient_values :=
  (response <- (get client (nutrient_endpoint nutrient_id start end_) MAX_RETRIES).1 ;;
   match json_method response with
   | Raise (ValueError _) | Raise (AttributeError _) => Ret []
   | Raise e => Raise e
   | Ret (JObject items) => Ret (List.filter (fun kv => negb (is_none kv.2)) items)
   | Ret _ => Ret []
   end)%res.

(** The [lambda] handed to the pool. *)
Definition fetch_task (client : YazioClient) (start end_ : string) (n : string)
  : outcome nutrient_values :=
  match fetch_nutrient client n start end_ with
  | Ret values => Returned values
  | Raise e => Raised e
  end.

(** [fetch_multiple(client, nutrients, start, end, max_workers)]: the
    successes keep their data, every key of [errors] gets [{}]. *)
Definition fetch_multiple (client : YazioClient) (nutrients : list string)
    (start end_ : string) (max_workers : Z) (order : list nat)
  : res (gmap string nutrient_values) :=
  (batch <- (fetch_concurrent nutrients (fetch_task client start end_)
                              max_workers order).1 ;;
   let '(successes, errors) := batch in
   let results := successes in
   Ret (foldl (fun results nutrient => <[nutrient := []]> results)
              results (map_to_list errors).*1))%res.

End ExportNutrients.

(** ** export_nutrients.py, the whole profile *)

Module NutrientProfile.
Import Constants Client Utils ExportNutrients.

Definition ALL_VITAMINS : list string :=
  [ "vitamin.a"; "vitamin.b1"; "vitamin.b2"; "vitamin.b3"; "vitamin.b5";
    "vitamin.b6"; "vitamin.b7"; "vitamin.b11"; "vitamin.b12"; "vitamin.c";
    "vitamin.d"; "vitamin.e"; "vitamin.k" ].

Definition ALL_MINERALS : list string :=
  [ "mineral.calcium"; "mineral.iron"; "mineral.potassium"; "mineral.magnesium";
    "mineral.phosphorus"; "mineral.zinc"; "mineral.copper"; "mineral.manganese";
    "mineral.selenium"; "mineral.iodine"; "mineral.fluoride"; "mineral.chlorine";
    "mineral.choline" ].

(** [fetch_all(client, start, end, max_workers)] *)
Definition fetch_all (client : YazioClient) (start end_ : string)
    (max_workers : Z) (order : list nat)
  : res (gmap string nutrient_values) :=
  let all_nutrients := ALL_VITAMINS ++ ALL_MINERALS in
  fetch_multiple client all_nutrients start end_ max_workers order.

End NutrientProfile.

(** ** export_products.py *)

Module ExportProducts.
Import Constants Client Utils.

(** [fetch_product(client, product_id)] *)
Definition fetch_product (client : YazioClient) (product_id : string) : res json :=
  (response <- (get client ("/products/" +:+ product_id) MAX_RETRIES).1 ;;
   json_method response)%res.

(** [fetch_recipe(client, recipe_id)] *)
Definition fetch_recipe (client : YazioClient) (recipe_id : string) : res json :=
  (response <- (get client ("/recipes/" +:+ recipe_id) MAX_RETRIES).1 ;;
   json_method response)%res.

(** What an id is bound to in the result: the document, or the
    exception object of the failed fetch. *)
Inductive entry : Type :=
| Document (data : json)
| Failure (e : exn).

(** The two [lambda]s handed to the pool. *)
Definition as_task (fetch : string -> res json) (id : string) : outcome json :=
  match fetch id with
  | Ret data => Returned data
  | Raise e => Raised e
  end.

(** [merged = dict(successes)], then [merged[id] = err] for every item
    of [errors]. *)
Definition merge (successes : gmap string json) (errors : gmap string exn)
  : gmap string entry :=
  foldl (fun merged item => <[item.1 := Failure item.2]> merged)
        (Document <$> successes) (map_to_list errors).

(** The returned [dict] with its two keys. *)
Record catalogue : Type := {
  products : gmap string entry;
  recipes : gmap string entry;
}.

(** [fetch_all_concurrent(client, product_ids, recipe_ids, max_workers)];
    [list(ids)] lists a set in some order, here that of [elements]. *)
Definition fetch_all_concurrent (client : YazioClient)
    (product_ids recipe_ids : gset string) (max_workers : Z)
    (product_order recipe_order : list nat)
  : res catalogue * list (pool_event string) :=
  match fetch_concurrent (elements product_ids) (as_task (fetch_product client))
                         max_workers product_order with
  | (Raise e, trace) => (Raise e, trace)
  | (Ret (product_successes, product_errors), product_trace) =>
      match fetch_concurrent (elements recipe_ids) (as_task (fetch_recipe client))
                             max_workers recipe_order with
      | (Raise e, recipe_trace) => (Raise e, product_trace ++ recipe_trace)
      | (Ret (recipe_successes, recipe_errors), recipe_trace) =>
          (Ret {| products := merge product_successes product_errors;
                  recipes := merge recipe_successes recipe_errors |},
           product_trace ++ recipe_trace)
      end
  end.

(** export_all.py, step 5: the entries that are no exception
    objects. *)
Definition clean (entries : gmap string entry) : gmap string json :=
  omap (fun pdata =>
          match pdata with
          | Document data => Some data
          | Failure _ => None
          end) entries.

End ExportProducts.

(** ** utils.py, the date helpers *)

Module DateUtils.
Import ExportDays.

(** *** [datetime.strptime(s, "%Y-%m-%d")]

    The format compiles to the pattern
    [(?P<Y>\d\d\d\d)-(?P<m>1[0-2]|0[1-9]|[1-9])-(?P<d>3[01]|[12]\d|0[1-9]|[1-9]| [1-9])],
    matched at the start of the string (digits are the ASCII ones
    here); text left over after the match, and a day the month does
    not have, are [ValueError]s as well. *)

Definition digit_value (c : ascii) : option Z :=
  let n := Z.of_nat (nat_of_ascii c) in
  if (48 <=? n) && (n <=? 57) then Some (n - 48) else None.

(** [(?P<Y>\d\d\d\d)] *)
Definition match_year (s : string) : option (Z * string) :=
  match s with
  | String a (String b (String c (String d rest))) =>
      match digit_value a, digit_value b, digit_value c, digit_value d with
      | Some a, Some b, Some c, Some d =>
          Some (1000 * a + 100 * b + 10 * c + d, rest)
      | _, _, _, _ => None
      end
  | _ => None
  end.

(** The literal [-]. *)
Definition match_dash (s : string) : option string :=
  match s with
  | String "-" rest => Some rest
  | _ => None
  end.

(** The alternatives of [(?P<m>1[0-2]|0[1-9]|[1-9])] that match at the
    start of [s], in the order the pattern tries them. *)
Definition match_month (s : string) : list (Z * string) :=
  match s with
  | String a rest1 =>
      let two :=
        match rest1 with
        | String b rest2 =>
            match digit_value a, digit_value b with
            | Some 1, Some b => if b <=? 2 then [(10 + b, rest2)] else []
            | Some 0, Some b => if 1 <=? b then [(b, rest2)] else []
            | _, _ => []
            end
        | EmptyString => []
        end in
      let one :=
        match digit_value a with
        | Some a => if 1 <=? a then [(a, rest1)] else []
        | None => []
        end in
      two ++ one
  | EmptyString => []
  end.

(** [(?P<d>3[01]|[12]\d|0[1-9]|[1-9]| [1-9])], at the end of the
    pattern: the first alternative that matches. *)
Definition match_day (s : string) : option (Z * string) :=
  match s with
  | String a rest1 =>
      let two :=
        match rest1 with
        | String b rest2 =>
            match digit_value a, digit_value b with
            | Some 3, Some b => if b <=? 1 then Some (30 + b, rest2) else None
            | Some 1, Some b | Some 2, Some b =>
                Some (10 * (if Ascii.eqb a "1" then 1 else 2) + b, rest2)
            | Some 0, Some b => if 1 <=? b then Some (b, rest2) else None
            | None, Some b =>
                if Ascii.eqb a " " && (1 <=? b) then Some (b, rest2) else None
            | _, _ => None
            end
        | EmptyString => None
        end in
      match two with
      | Some found => Some found
      | None =>
          match digit_value a with
          | Some a => if 1 <=? a then Some (a, rest1) else None
          | None => None
          end
      end
  | EmptyString => None
  end.

(** The first way to match month, dash and day, trying the
    alternatives of the month in order. *)
Fixpoint match_month_day (months : list (Z * string)) : option (Z * Z * string) :=
  match months with
  | [] => None
  | (m, rest) :: others =>
      match match_dash rest with
      | Some rest =>
          match match_day rest with
          | Some (d, rest) => Some (m, d, rest)
          | None => match_month_day others
          end
      | None => match_month_day others
      end
  end.

Definition strptime_ymd (s : string) : res date :=
  match match_year s with
  | None => Raise (ValueError "time data does not match format '%Y-%m-%d'")
  | Some (y, rest) =>
      match match_dash rest with
      | None => Raise (ValueError "time data does not match format '%Y-%m-%d'")
      | Some rest =>
          match match_month_day (match_month rest) with
          | None => Raise (ValueError "time data does not match format '%Y-%m-%d'")
          | Some (m, d, EmptyString) => new_date y m d
          | Some (_, _, String _ _) => Raise (ValueError "unconverted data remains")
          end
      end
  end.

(** *** The three helpers *)

(** [validate_date(date_str)] *)
Definition validate_date (date_str : string) : res string :=
  match strptime_ymd date_str with
  | Raise (ValueError _) =>
      Raise (ValueError ("Invalid date format: '" +:+ date_str +:+
                         "'. Expected YYYY-MM-DD (e.g., 2024-01-15)"))
  | Raise e => Raise e
  | Ret _ => Ret date_str
  end.

(** [a <= b] on dates. *)
Definition date_le (a b : date) : bool :=
  (year a <? year b) ||
  ((year a =? year b) &&
   ((month a <? month b) || ((month a =? month b) && (day a <=? day b)))).

(** [validate_date_range(from_date, end_date)] *)
Definition validate_date_range (from_date end_date : string) : res unit :=
  (start <- strptime_ymd from_date ;;
   end_ <- strptime_ymd end_date ;;
   if negb (date_le start end_)
   then Raise (ValueError ("Start date (" +:+ from_date +:+ ") is after end date (" +:+
                           end_date +:+ "). Did you swap --from-date and --end-date?"))
   else Ret tt)%res.

(** [d + timedelta(days=1)]: the next day of the calendar; nothing
    ([OverflowError]) after 9999-12-31. *)
Definition next_day (d : date) : option date :=
  if day d <? monthrange_days (year d) (month d)
  then Some (Date (year d) (month d) (day d + 1))
  else if month d <? 12
  then Some (Date (year d) (month d + 1) 1)
  else if year d <? 9999
  then Some (Date (year d + 1) 1 1)
  else None.

(** How an iteration over dates ends. *)
Inductive ending : Type :=
| Exhausted
| RaisedValueError (e : exn)
| RaisedOverflowError.

(** The loop [while current <= end_date: yield ...; current += one day]:
    what it yields and how it ends; [None] when [fuel] iterations did
    not reach its end. *)
Fixpoint days_loop (fuel : nat) (current end_date : date)
  : option (list string * ending) :=
  match fuel with
  | O => None
  | S fuel =>
      if date_le current end_date
      then
        match next_day current with
        | None => Some ([strftime_ymd current], RaisedOverflowError)
        | Some next =>
            match days_loop fuel next end_date with
            | Some (later, how) => Some (strftime_ymd current :: later, how)
            | None => None
            end
        end
      else Some ([], Exhausted)
  end.

(** The place of a date on a line on which every month has room for 32
    days and every year for 13 months. *)
Definition day_index (d : date) : Z := 416 * year d + 32 * month d + day d.

(** [date_range(start, end)]: the strings the generator yields, and how
    it ends.  The loop gets one iteration more than there are places
    from [start] to [end]. *)
Definition date_range (start end_ : string) : option (list string * ending) :=
  match strptime_ymd start with
  | Raise e => Some ([], RaisedValueError e)
  | Ret start_date =>
      match strptime_ymd end_ with
      | Raise e => Some ([], RaisedValueError e)
      | Ret end_date =>
          days_loop (S (Z.to_nat (day_index end_date - day_index start_date + 1)))
                    start_date end_date
      end
  end.

End DateUtils.

(** ** export_body.py *)

Module ExportBody.
Import Constants Client Utils ExportDays DateUtils.

Definition BODY_MEASUREMENT_TYPES : list string := ["body_fat"; "waist"; "hip"; "chest"].

Section weight.
Context {F : Type}.

(** [float(value)]: the float, or the [TypeError] or [ValueError] of a
    value that is none. *)
Variable float : json -> res F.

(** [fetch_weight(client, date)] *)
Definition fetch_weight (client : YazioClient) (date : string) : res (option F) :=
  (response <- (get client ("/user/bodyvalues/weight/last?date=" +:+ date) MAX_RETRIES).1 ;;
   match json_method response with
   | Raise (ValueError _) | Raise (AttributeError _) => Ret None
   | Raise e => Raise e
   | Ret (JObject items) =>
       match dict_lookup "value" items with
       | None => Ret None
       | Some JNull => Ret None
       | Some value => (weight <- float value ;; Ret (Some weight))
       end
   | Ret _ => Ret None
   end)%res.

(** The [lambda] handed to the pool. *)
Definition weight_task (client : YazioClient) (d : string) : outcome (option F) :=
  match fetch_weight client d with
  | Ret w => Returned w
  | Raise e => Raised e
  end.

(** What a call of [fetch_weight_range] comes to. *)
Inductive weights : Type :=
| Weights (by_date : gmap string F)
| WeightsRaised (e : exn)
| WeightsOverflowError.

(** [fetch_weight_range(client, start, end, max_workers)], with what it
    did to the thread pool; [None] when the loop over the dates was not
    given iterations enough. *)
Definition fetch_weight_range (client : YazioClient) (start end_ : string)
    (max_workers : Z) (order : list nat)
  : option (weights * list (pool_event string)) :=
  match strptime_ymd start with
  | Raise e => Some (WeightsRaised e, [])
  | Ret start_date =>
      match strptime_ymd end_ with
      | Raise e => Some (WeightsRaised e, [])
      | Ret end_date =>
          match days_loop (S (Z.to_nat (day_index end_date - day_index start_date + 1)))
                          start_date end_date with
          | None => None
          | Some (_, RaisedValueError e) => Some (WeightsRaised e, [])
          | Some (_, RaisedOverflowError) => Some (WeightsOverflowError, [])
          | Some ([], Exhausted) => Some (Weights ∅, [])
          | Some (dates, Exhausted) =>
              match fetch_concurrent dates (weight_task client) max_workers order with
              | (Raise e, trace) => Some (WeightsRaised e, trace)
              | (Ret (results, _errors), trace) =>
                  Some (Weights (omap id results), trace)
              end
          end
      end
  end.
End weight.

(** [filter_null_values(data)] *)
Definition filter_null_values (data : json) : list (string * json) :=
  match data with
  | JObject items =>
      List.filter (fun kv => match kv.2 with JNull => false | _ => true end) items
  | _ => []
  end.

(** The loop of [probe_body_types] over the types still to probe: the
    types found available, or the exception that ended the probe, and
    the endpoints passed to [client.get]. *)
Fixpoint probe (client : YazioClient) (date : string) (types : list string)
    (available_types : gmap string json)
  : res (gmap string json) * list string :=
  match types with
  | [] => (Ret available_types, [])
  | body_type :: rest =>
      let endpoint := "/user/bodyvalues/" +:+ body_type +:+ "/last?date=" +:+ date in
      let continue (available_types : gmap string json) :=
        let '(result, later) := probe client date rest available_types in
        (result, endpoint :: later) in
      match (get client endpoint MAX_RETRIES).1 with
      | Raise (APIError _ _ _) => continue available_types
      | Raise e => (Raise e, [endpoint])
      | Ret response =>
          match json_method response with
          | Raise (ValueError _) | Raise (AttributeError _) => continue available_types
          | Raise (APIError _ _ _) => continue available_types
          | Raise e => (Raise e, [endpoint])
          | Ret (JObject items) =>
              match dict_lookup "value" items with
              | None | Some JNull => continue available_types
              | Some value => continue (<[body_type := value]> available_types)
              end
          | Ret _ => continue available_types
          end
      end
  end.

(** [probe_body_types(client, date)] *)
Definition probe_body_types (client : YazioClient) (date : string)
  : res (gmap string json) * list string :=
  probe client date BODY_MEASUREMENT_TYPES ∅.

End ExportBody.

(** * Properties *)

(** ** The task executor *)

Module UtilsSpec.
Import Utils.

Section executor.
Context {Item : Type} `{Countable Item}.
Context {R : Type}.
Implicit Types (items : list Item) (fs : list (@future Item R)).
Implicit Types (fetch_fn : Item -> outcome R) (order : list nat).
Implicit Types (acc : gmap Item R * gmap Item exn) (i id : Item).

Lemma as_completed_in_order fs :
  as_completed fs (seq 0 (length fs)) = fs.
Proof.
  unfold as_completed.
  induction fs as [|f fs IH] using rev_ind; [done|].
  rewrite length_app, Nat.add_comm. cbn [length Nat.add].
  rewrite seq_S, omap_app. cbn [omap list_omap Nat.add].
  rewrite lookup_app_r by lia. rewrite Nat.sub_diag. cbn.
  f_equal. rewrite <- IH at 2.
  apply list_omap_ext, Forall2_same_length_lookup. split; [done|].
  intros i x y Hx Hy. assert (x = y) as <- by congruence.
  apply lookup_seq in Hx as [-> Hlt]. cbn.
  by rewrite lookup_app_l by lia.
Qed.

Lemma as_completed_perm fs order :
  order ≡ₚ seq 0 (length fs) -> as_completed fs order ≡ₚ fs.
Proof.
  intros Hperm. rewrite <- (as_completed_in_order fs) at 2.
  unfold as_completed. by rewrite Hperm.
Qed.

(** Every future carries the outcome of [fetch_fn] on its item. *)
Definition coherent fetch_fn fs : Prop :=
  Forall (fun f => f.2 = fetch_fn f.1) fs.

Lemma coherent_submit_all fetch_fn items :
  coherent fetch_fn (submit_all fetch_fn items).
Proof. apply Forall_forall. intros f [i [-> _]]%list_elem_of_fmap. done. Qed.

Lemma record_fst_lookup acc i (o : outcome R) id :
  (record acc (i, o)).1 !! id =
    match o with
    | Returned r => if decide (i = id) then Some r else acc.1 !! id
    | Raised _ => acc.1 !! id
    end.
Proof.
  unfold record. destruct o; cbn; [|done].
  case_decide; [subst; apply lookup_insert_eq|by apply lookup_insert_ne].
Qed.

Lemma record_snd_lookup acc i (o : outcome R) id :
  (record acc (i, o)).2 !! id =
    match o with
    | Returned _ => acc.2 !! id
    | Raised e => if decide (i = id) then Some e else acc.2 !! id
    end.
Proof.
  unfold record. destruct o; cbn; [done|].
  case_decide; [subst; apply lookup_insert_eq|by apply lookup_insert_ne].
Qed.

Local Ltac member :=
  rewrite ?fmap_cons, ?elem_of_cons; cbn; intuition congruence.

Lemma record_results fetch_fn fs acc id :
  coherent fetch_fn fs ->
  (foldl record acc fs).1 !! id =
    match fetch_fn id with
    | Returned r => if decide (id ∈ fs.*1) then Some r else acc.1 !! id
    | Raised _ => acc.1 !! id
    end.
Proof.
  revert acc. induction fs as [|[i o] fs IH]; intros acc Hc.
  - cbn. destruct (fetch_fn id); [|done].
    rewrite decide_False; [done|]. by intros ?%elem_of_nil.
  - apply Forall_cons in Hc as [Hi Hc]. cbn in Hi. subst o.
    cbn [foldl]. rewrite IH by done. rewrite record_fst_lookup.
    destruct (decide (i = id)) as [->|Hne].
    + destruct (fetch_fn id); [|done].
      rewrite (decide_True (P := id ∈ ((id, Returned r) :: fs).*1)) by member.
      by case_decide.
    + destruct (fetch_fn id) as [r|e].
      * destruct (decide (id ∈ fs.*1)).
        -- by rewrite decide_True by member.
        -- rewrite decide_False by member. by destruct (fetch_fn i).
      * by destruct (fetch_fn i).
Qed.

Lemma record_errors fetch_fn fs acc id :
  coherent fetch_fn fs ->
  (foldl record acc fs).2 !! id =
    match fetch_fn id with
    | Returned _ => acc.2 !! id
    | Raised e => if decide (id ∈ fs.*1) then Some e else acc.2 !! id
    end.
Proof.
  revert acc. induction fs as [|[i o] fs IH]; intros acc Hc.
  - cbn. destruct (fetch_fn id); [done|].
    rewrite decide_False; [done|]. by intros ?%elem_of_nil.
  - apply Forall_cons in Hc as [Hi Hc]. cbn in Hi. subst o.
    cbn [foldl]. rewrite IH by done. rewrite record_snd_lookup.
    destruct (decide (i = id)) as [->|Hne].
    + destruct (fetch_fn id); [done|].
      rewrite (decide_True (P := id ∈ ((id, Raised e) :: fs).*1)) by member.
      by case_decide.
    + destruct (fetch_fn id) as [r|e].
      * by destruct (fetch_fn i).
      * destruct (decide (id ∈ fs.*1)).
        -- by rewrite decide_True by member.
        -- rewrite decide_False by member. by destruct (fetch_fn i).
Qed.

(** What the pool does for a batch that is not empty. *)
Definition pool_trace items (max_workers : Z) : list (pool_event Item) :=
  match items with
  | [] => []
  | _ :: _ => PoolStart max_workers :: map Submit items ++ [PoolShutdown]
  end.

Lemma submitted_pool_trace items max_workers :
  submitted (pool_trace items max_workers) = items.
Proof.
  destruct items as [|i items]; [done|]. unfold pool_trace, submitted.
  cbn [omap list_omap]. rewrite omap_app. cbn. rewrite app_nil_r.
  f_equal. induction items as [|x l IH]; [done|]. cbn. by rewrite IH.
Qed.

(** The batch always comes back, and each map is read off [fetch_fn]. *)
Lemma fetch_concurrent_returns items fetch_fn max_workers order :
  0 < max_workers ->
  order ≡ₚ seq 0 (length items) ->
  ∃ results errors,
    fetch_concurrent items fetch_fn max_workers order =
      (Ret (results, errors), pool_trace items max_workers) ∧
    (∀ id, results !! id =
             match fetch_fn id with
             | Returned r => if decide (id ∈ items) then Some r else None
             | Raised _ => None
             end) ∧
    (∀ id, errors !! id =
             match fetch_fn id with
             | Returned _ => None
             | Raised e => if decide (id ∈ items) then Some e else None
             end).
Proof.
  intros Hw Hperm.
  set (fs := as_completed (submit_all fetch_fn items) order).
  assert (fs ≡ₚ submit_all fetch_fn items) as Hfs.
  { apply as_completed_perm. unfold submit_all. by rewrite length_map. }
  assert (coherent fetch_fn fs) as Hc.
  { unfold coherent. rewrite Hfs. apply coherent_submit_all. }
  assert (∀ id, id ∈ fs.*1 ↔ id ∈ items) as Hin.
  { intros id. rewrite Hfs. unfold submit_all.
    rewrite <- list_fmap_compose. by rewrite list_fmap_id. }
  exists (foldl record (∅, ∅) fs).1, (foldl record (∅, ∅) fs).2.
  split; [|split].
  - unfold fetch_concurrent, pool_trace. destruct items as [|i items].
    + apply Permutation_nil_r in Hperm. subst order. done.
    + rewrite (proj2 (Z.leb_gt _ _)) by lia. fold fs. by destruct (foldl _ _ _).
  - intros id. rewrite (record_results fetch_fn) by done. cbn.
    destruct (fetch_fn id); [|done].
    destruct (decide (id ∈ fs.*1)) as [Hd|Hd], (decide (id ∈ items)) as [Hi|Hi];
      try done; exfalso; first [by apply Hi, Hin|by apply Hd, Hin].
  - intros id. rewrite (record_errors fetch_fn) by done. cbn.
    destruct (fetch_fn id); [done|].
    destruct (decide (id ∈ fs.*1)) as [Hd|Hd], (decide (id ∈ items)) as [Hi|Hi];
      try done; exfalso; first [by apply Hi, Hin|by apply Hd, Hin].
Qed.

(** C1.  For a batch of pairwise distinct identities and any task
    function, [fetch_concurrent] returns two maps whose sizes add up
    to the number of identities, whose key sets are disjoint, and
    such that every identity is a key of exactly one of them. *)
Theorem fetch_concurrent_accounts_for_every_identity
    items fetch_fn max_workers order :
  NoDup items ->
  0 < max_workers ->
  order ≡ₚ seq 0 (length items) ->
  ∃ results errors trace,
    fetch_concurrent items fetch_fn max_workers order =
      (Ret (results, errors), trace) ∧
    (size results + size errors = length items)%nat ∧
    (dom results ## dom errors) ∧
    ∀ id, id ∈ items ->
          (id ∈ dom results ∧ id ∉ dom errors) ∨
          ((id ∉ dom results) ∧ id ∈ dom errors).
Proof.
  intros Hnodup Hw Hperm.
  destruct (fetch_concurrent_returns items fetch_fn max_workers order Hw Hperm)
    as (results & errors & Hrun & Hres & Herr).
  exists results, errors, (pool_trace items max_workers).
  assert (dom results ## dom errors) as Hdisj.
  { intros id [r Hr]%elem_of_dom [e He]%elem_of_dom.
    rewrite Hres in Hr. rewrite Herr in He. by destruct (fetch_fn id). }
  assert (dom results ∪ dom errors = list_to_set items) as Hcover.
  { apply set_eq. intros id.
    rewrite elem_of_union, !elem_of_dom, elem_of_list_to_set, Hres, Herr.
    destruct (fetch_fn id); case_decide; split;
      intros; try done; try (by left); try (by right);
      by destruct_or?; destruct_and?; match goal with
         | Hx : is_Some None |- _ => destruct (is_Some_None Hx)
         end. }
  split; [done|]. split; [|split; [done|]].
  - rewrite <- (size_dom results), <- (size_dom errors), <- size_union by done.
    rewrite Hcover. by apply size_list_to_set.
  - intros id Hid. rewrite !elem_of_dom, Hres, Herr.
    destruct (fetch_fn id); rewrite decide_True by done; [left|right];
      split; try done; by intros ?%is_Some_None.
Qed.

(** C4.  An identity whose task raises has that exception stored
    under it in the failure map; the batch itself returns, the pool
    was asked to run every identity, and every identity of the batch
    is recorded according to its own outcome. *)
Theorem fetch_concurrent_stores_raised_exception
    items fetch_fn max_workers order id e :
  0 < max_workers ->
  order ≡ₚ seq 0 (length items) ->
  id ∈ items ->
  fetch_fn id = Raised e ->
  ∃ results errors trace,
    fetch_concurrent items fetch_fn max_workers order =
      (Ret (results, errors), trace) ∧
    errors !! id = Some e ∧
    results !! id = None ∧
    submitted trace = items ∧
    ∀ id', id' ∈ items ->
           match fetch_fn id' with
           | Returned r => results !! id' = Some r ∧ errors !! id' = None
           | Raised e' => errors !! id' = Some e' ∧ results !! id' = None
           end.
Proof.
  intros Hw Hperm Hid Hraise.
  destruct (fetch_concurrent_returns items fetch_fn max_workers order Hw Hperm)
    as (results & errors & Hrun & Hres & Herr).
  exists results, errors, (pool_trace items max_workers).
  split; [done|]. rewrite Herr, Hres, Hraise. rewrite decide_True by done.
  split; [done|]. split; [done|]. split; [apply submitted_pool_trace|].
  intros id' Hid'. rewrite Hres, Herr.
  destruct (fetch_fn id'); by rewrite decide_True by done.
Qed.

(** C9.  For the empty list of identities [fetch_concurrent] returns
    two empty maps, whatever the task function and the worker cap
    are, without starting a pool and without submitting any call. *)
Theorem fetch_concurrent_empty_batch fetch_fn max_workers order :
  fetch_concurrent [] fetch_fn max_workers order =
    (Ret ((∅ : gmap Item R), (∅ : gmap Item exn)), []) ∧
  submitted (fetch_concurrent [] fetch_fn max_workers order).2 = [].
Proof. by split. Qed.
End executor.

(** A batch of three, where the task of the second identity raises and
    the third finishes first. *)
Definition sample_task (n : nat) : outcome string :=
  if decide (n = 2%nat) then Raised (Timeout "timed out") else Returned "ok".

Lemma fetch_concurrent_accounts_for_every_identity_witness :
  ∃ results errors trace,
    fetch_concurrent [1; 2; 3]%nat sample_task 10 [2; 0; 1]%nat =
      (Ret (results, errors), trace) ∧
    (size results + size errors = 3)%nat ∧
    (dom results ## dom errors) ∧
    ∀ id, id ∈ [1; 2; 3]%nat ->
          (id ∈ dom results ∧ id ∉ dom errors) ∨
          ((id ∉ dom results) ∧ id ∈ dom errors).
Proof.
  apply (fetch_concurrent_accounts_for_every_identity
           [1; 2; 3]%nat sample_task 10 [2; 0; 1]%nat).
  - repeat constructor; rewrite ?elem_of_cons, ?elem_of_nil; lia.
  - lia.
  - cbn. apply (perm_trans (l' := [0; 2; 1]%nat));
      [apply perm_swap|apply perm_skip, perm_swap].
Defined.

Lemma fetch_concurrent_stores_raised_exception_witness :
  ∃ results errors trace,
    fetch_concurrent [1; 2; 3]%nat sample_task 10 [2; 0; 1]%nat =
      (Ret (results, errors), trace) ∧
    errors !! 2%nat = Some (Timeout "timed out") ∧
    results !! 2%nat = None ∧
    submitted trace = [1; 2; 3]%nat ∧
    ∀ id', id' ∈ [1; 2; 3]%nat ->
           match sample_task id' with
           | Returned r => results !! id' = Some r ∧ errors !! id' = None
           | Raised e' => errors !! id' = Some e' ∧ results !! id' = None
           end.
Proof.
  apply (fetch_concurrent_stores_raised_exception
           [1; 2; 3]%nat sample_task 10 [2; 0; 1]%nat 2%nat (Timeout "timed out")).
  - lia.
  - cbn. apply (perm_trans (l' := [0; 2; 1]%nat));
      [apply perm_swap|apply perm_skip, perm_swap].
  - rewrite !elem_of_cons. auto.
  - reflexivity.
Defined.

End UtilsSpec.

(** ** The HTTP client *)

Module ClientSpec.
Import Constants Client.

(** An attempt after which [get] goes round its loop again, if the
    loop has a round left: a 5xx response, or a transport failure that
    is no timeout. *)
Definition retryable (s : sent) : bool :=
  match s with
  | Responded r => (500 <=? status_code r) && (status_code r <? 600)
  | Failed (RequestException _) => true
  | Failed _ => false
  end.

(** What [get] raises when such an attempt was the last one. *)
Definition last_error (url : string) (s : sent) : exn :=
  match s with
  | Responded r =>
      APIError (http_error_message (status_code r) url) (status_code r) url
  | Failed e => e
  end.

(** The requests and sleeps of [n] retried attempts, from attempt [a]. *)
Definition pauses (url : string) (a n : Z) : list io_event :=
  attempt ← seqZ a n; [HttpGet url; Sleep (2 ^ attempt)].

(** The whole trace of a call whose attempt [n] is the last. *)
Definition backoff_trace (url : string) (n : Z) : list io_event :=
  pauses url 0 n ++ [HttpGet url].

(** The word the tests look for in the message of an
    [AuthenticationError], in any case of letters. *)
Definition lower (c : ascii) : ascii :=
  let n := nat_of_ascii c in
  if (65 <=? n)%nat && (n <=? 90)%nat then ascii_of_nat (n + 32) else c.

Fixpoint lowercase (s : string) : string :=
  match s with
  | EmptyString => EmptyString
  | String c rest => String (lower c) (lowercase rest)
  end.

Definition instructs_login (message : string) : bool :=
  str_contains "login" (lowercase message).

Section retry_loop.
Variable self : YazioClient.
Variable url : string.
Variable max_retries : Z.

Lemma get_attempts_retry attempt rest :
  retryable (session_get self url attempt) = true ->
  attempt < max_retries - 1 ->
  get_attempts self url max_retries (attempt :: rest) =
    ((get_attempts self url max_retries rest).1,
     HttpGet url :: Sleep (2 ^ attempt) ::
       (get_attempts self url max_retries rest).2).
Proof.
  intros Hretry Hlt. cbn [get_attempts].
  rewrite (proj2 (Z.ltb_lt _ _) Hlt).
  destruct (get_attempts self url max_retries rest) as [result trace].
  destruct (session_get self url attempt) as [r|e]; cbn in Hretry.
  - assert ((status_code r =? 401) = false) as -> by lia. by rewrite Hretry.
  - by destruct e.
Qed.

Lemma get_attempts_exhausted attempt rest :
  retryable (session_get self url attempt) = true ->
  max_retries - 1 <= attempt ->
  get_attempts self url max_retries (attempt :: rest) =
    (Raise (last_error url (session_get self url attempt)), [HttpGet url]).
Proof.
  intros Hretry Hge. cbn [get_attempts].
  rewrite (proj2 (Z.ltb_ge _ _) Hge).
  destruct (session_get self url attempt) as [r|e]; cbn in Hretry.
  - assert ((status_code r =? 401) = false) as -> by lia. by rewrite Hretry.
  - by destruct e.
Qed.

Lemma get_attempts_pauses (n : nat) a rest :
  (forall k, a <= k < a + Z.of_nat n ->
             retryable (session_get self url k) = true) ->
  a + Z.of_nat n <= max_retries - 1 ->
  get_attempts self url max_retries (seqZ a (Z.of_nat n) ++ rest) =
    ((get_attempts self url max_retries rest).1,
     pauses url a (Z.of_nat n) ++ (get_attempts self url max_retries rest).2).
Proof.
  revert a. induction n as [|n IH]; intros a Hretry Hle.
  - unfold pauses. change (seqZ a (Z.of_nat 0)) with (@nil Z). cbn.
    by destruct (get_attempts self url max_retries rest).
  - unfold pauses. rewrite seqZ_cons by lia.
    replace (Z.pred (Z.of_nat (S n))) with (Z.of_nat n) by lia.
    rewrite <- app_comm_cons, get_attempts_retry by (try apply Hretry; lia).
    rewrite IH by (try (intros; apply Hretry); lia).
    by rewrite bind_cons.
Qed.

(** A call whose first [a] attempts are retried goes on with
    attempt [a]. *)
Lemma get_attempts_reaches a :
  0 <= a < max_retries ->
  (forall k, 0 <= k < a -> retryable (session_get self url k) = true) ->
  get_attempts self url max_retries (seqZ 0 max_retries) =
    let later :=
      get_attempts self url max_retries
        (a :: seqZ (Z.succ a) (max_retries - a - 1)) in
    (later.1, pauses url 0 a ++ later.2).
Proof.
  intros Ha Hretry.
  replace max_retries with (a + (max_retries - a)) at 2 by lia.
  rewrite seqZ_app by lia. rewrite Z.add_0_l.
  rewrite (seqZ_cons a) by lia.
  replace (Z.pred (max_retries - a)) with (max_retries - a - 1) by lia.
  rewrite <- (Z2Nat.id a) at 1 4 by lia.
  rewrite get_attempts_pauses; [by rewrite Z2Nat.id by lia| |lia].
  intros k Hk. apply Hretry. lia.
Qed.
End retry_loop.

Lemma requests_pauses url a (n : nat) :
  requests (pauses url a (Z.of_nat n)) = replicate n url.
Proof.
  unfold requests, pauses. induction n as [|n IH]; [done|].
  rewrite seqZ_S, bind_app, omap_app, IH. cbn.
  symmetry. apply replicate_S_end.
Qed.

Lemma sleeps_pauses url a (n : nat) :
  sleeps (pauses url a (Z.of_nat n)) = (fun k => 2 ^ k) <$> seqZ a (Z.of_nat n).
Proof.
  unfold sleeps, pauses. induction n as [|n IH]; [done|].
  by rewrite seqZ_S, bind_app, omap_app, fmap_app, IH.
Qed.

Lemma requests_backoff_trace url (n : nat) :
  requests (backoff_trace url (Z.of_nat n)) = replicate (S n) url.
Proof.
  unfold backoff_trace, requests. rewrite omap_app.
  fold (requests (pauses url 0 (Z.of_nat n))). rewrite requests_pauses.
  by rewrite replicate_S_end.
Qed.

Lemma sleeps_backoff_trace url (n : nat) :
  sleeps (backoff_trace url (Z.of_nat n)) = (fun k => 2 ^ k) <$> seqZ 0 (Z.of_nat n).
Proof.
  unfold backoff_trace, sleeps. rewrite omap_app.
  fold (sleeps (pauses url 0 (Z.of_nat n))). rewrite sleeps_pauses.
  cbn. by rewrite app_nil_r.
Qed.

Lemma get_attempts_success self url max_retries attempt rest r :
  session_get self url attempt = Responded r ->
  ok r = true ->
  get_attempts self url max_retries (attempt :: rest) =
    (Ret (Some r), [HttpGet url]).
Proof.
  intros Hsent Hok. cbn [get_attempts]. rewrite Hsent, Hok. cbn.
  unfold ok in Hok.
  assert ((status_code r =? 401) = false) as -> by lia.
  by assert ((500 <=? status_code r) && (status_code r <? 600) = false) as -> by lia.
Qed.

Lemma get_attempts_unauthorized self url max_retries attempt rest r :
  session_get self url attempt = Responded r ->
  status_code r = 401 ->
  get_attempts self url max_retries (attempt :: rest) =
    (Raise (unauthorized url r), [HttpGet url]).
Proof.
  intros Hsent H401. cbn [get_attempts]. rewrite Hsent, H401. done.
Qed.

Lemma get_attempts_timeout self url max_retries attempt rest detail :
  session_get self url attempt = Failed (Timeout detail) ->
  get_attempts self url max_retries (attempt :: rest) =
    (Raise (Timeout detail), [HttpGet url]).
Proof. intros Hsent. cbn [get_attempts]. by rewrite Hsent. Qed.

Lemma server_error_retryable (s : sent) :
  (exists resp, s = Responded resp /\ 500 <= status_code resp < 600) ->
  retryable s = true.
Proof. intros (resp & -> & Hs). cbn. lia. Qed.

(** C2.  When the service answers the first [N] requests of a call
    with a 5xx status and the next one with a response that is [ok],
    [get] with three attempts returns that response after [N + 1]
    requests if [N + 1 <= 3], and raises [APIError] after three
    requests otherwise; after the failed attempt [k] (from 0) that is
    not the last it sleeps [2 ^ k] seconds. *)
Theorem get_retries_server_errors self endpoint url (N : nat) r :
  url = get_url self endpoint ->
  (forall k, 0 <= k < Z.of_nat N ->
             exists resp, session_get self url k = Responded resp /\
                          500 <= status_code resp < 600) ->
  session_get self url (Z.of_nat N) = Responded r ->
  ok r = true ->
  ((N + 1 <= 3)%nat ->
     get self endpoint MAX_RETRIES =
       (Ret (Some r), backoff_trace url (Z.of_nat N)) /\
     requests (backoff_trace url (Z.of_nat N)) = replicate (N + 1) url /\
     sleeps (backoff_trace url (Z.of_nat N)) =
       (fun k => 2 ^ k) <$> seqZ 0 (Z.of_nat N)) /\
  ((N + 1 > 3)%nat ->
     exists resp,
       session_get self url 2 = Responded resp /\
       get self endpoint MAX_RETRIES =
         (Raise (APIError (http_error_message (status_code resp) url)
                          (status_code resp) url),
          backoff_trace url 2) /\
       requests (backoff_trace url 2) = replicate 3 url /\
       sleeps (backoff_trace url 2) = [1; 2]).
Proof.
  intros -> H5xx Hlast Hok. unfold get, MAX_RETRIES. split; intros HN.
  - rewrite (get_attempts_reaches _ _ _ (Z.of_nat N)) by
      (try (intros; apply server_error_retryable, H5xx); lia).
    cbn zeta. rewrite (get_attempts_success _ _ _ _ _ r) by done.
    split; [done|]. rewrite requests_backoff_trace, sleeps_backoff_trace.
    by rewrite Nat.add_1_r.
  - destruct (H5xx 2) as (resp & Hresp & Hstatus); [lia|].
    exists resp. split; [done|].
    rewrite (get_attempts_reaches _ _ _ 2) by
      (try (intros; apply server_error_retryable, H5xx); lia).
    cbn zeta. rewrite get_attempts_exhausted by
      (try (apply server_error_retryable; eauto); lia).
    rewrite Hresp. done.
Qed.

(** C5, as the code has it.  When every attempt fails with a transport
    error that is no timeout, [get] makes [max_retries] requests,
    sleeping [2 ^ k] seconds after the failed attempt [k] that is not
    the last, and then re-raises the exception of the last attempt as
    it is: no [APIError] is made of it. *)
Theorem get_reraises_transport_error self endpoint url max_retries detail :
  url = get_url self endpoint ->
  1 <= max_retries ->
  (forall k, 0 <= k < max_retries ->
             session_get self url k = Failed (RequestException (detail k))) ->
  get self endpoint max_retries =
    (Raise (RequestException (detail (max_retries - 1))),
     backoff_trace url (max_retries - 1)).
Proof.
  intros -> Hm Hfail. unfold get.
  assert (forall k, 0 <= k < max_retries ->
                    retryable (session_get self (get_url self endpoint) k) = true)
    as Hretry by (intros k Hk; by rewrite Hfail).
  rewrite (get_attempts_reaches _ _ _ (max_retries - 1)) by
    (try (intros; apply Hretry); lia).
  cbn zeta. rewrite get_attempts_exhausted by (try apply Hretry; lia).
  by rewrite Hfail by lia.
Qed.

(** C8.  When an attempt of [get] times out, the [Timeout] leaves
    [get] as it is, and the request that timed out is the last event
    of the call: no sleep and no further request follow it. *)
Theorem get_propagates_timeout self endpoint url max_retries attempt detail :
  url = get_url self endpoint ->
  0 <= attempt < max_retries ->
  (forall k, 0 <= k < attempt -> retryable (session_get self url k) = true) ->
  session_get self url attempt = Failed (Timeout detail) ->
  get self endpoint max_retries =
    (Raise (Timeout detail), pauses url 0 attempt ++ [HttpGet url]).
Proof.
  intros -> Ha Hretry Htimeout. unfold get.
  rewrite (get_attempts_reaches _ _ _ attempt) by done.
  cbn zeta. by rewrite (get_attempts_timeout _ _ _ _ _ detail).
Qed.

(** C6, as the code has it.  A 401 response ends the call at that
    attempt, with neither retry nor sleep.  The [AuthenticationError]
    carries the message that tells the caller to log in again when the
    body is not JSON, or is JSON in which [in] finds "error" or
    "message"; it carries the plain "HTTP 401 error for URL" message
    when the body is JSON in which [in] finds neither. *)
Theorem get_unauthorized_not_retried
    self endpoint url max_retries attempt r :
  url = get_url self endpoint ->
  0 <= attempt < max_retries ->
  (forall k, 0 <= k < attempt -> retryable (session_get self url k) = true) ->
  session_get self url attempt = Responded r ->
  status_code r = 401 ->
  get self endpoint max_retries =
    (Raise (unauthorized url r), pauses url 0 attempt ++ [HttpGet url]) /\
  (body r = None ->
   unauthorized url r = AuthenticationError token_expired_message) /\
  (forall data,
     body r = Some data ->
     py_in "error" data = Ret true \/
     (py_in "error" data = Ret false /\ py_in "message" data = Ret true) ->
     unauthorized url r = AuthenticationError token_expired_message) /\
  (forall data,
     body r = Some data ->
     py_in "error" data = Ret false ->
     py_in "message" data = Ret false ->
     unauthorized url r = AuthenticationError (http_error_message 401 url)) /\
  instructs_login token_expired_message = true.
Proof.
  intros -> Ha Hretry Hsent H401. split; [|split; [|split; [|split]]].
  - unfold get. rewrite (get_attempts_reaches _ _ _ attempt) by done.
    cbn zeta. by rewrite (get_attempts_unauthorized _ _ _ _ _ r).
  - intros Hbody. unfold unauthorized, json_of. by rewrite Hbody.
  - intros data Hbody Hin. unfold unauthorized, json_of. rewrite Hbody.
    destruct Hin as [->|[-> ->]]; done.
  - intros data Hbody Herror Hmessage. unfold unauthorized, json_of.
    by rewrite Hbody, Herror, Hmessage.
  - reflexivity.
Qed.

(** *** Sample services *)

Definition yazio (service : string -> Z -> sent) : YazioClient :=
  {| base_url := BASE_URL; api_version := API_VERSION; session_get := service |}.

(** Two 503 responses, then a 200. *)
Definition recovering : YazioClient :=
  yazio (fun _ attempt =>
           if attempt <? 2
           then Responded (Response 503 (Some (JObject [("error", JString "Service unavailable")])))
           else Responded (Response 200 (Some (JObject [("success", JBool true)])))).

(** Every connection is reset. *)
Definition unreachable : YazioClient :=
  yazio (fun _ _ => Failed (RequestException "connection reset")).

(** One 503 response, then the request times out. *)
Definition hanging : YazioClient :=
  yazio (fun _ attempt =>
           if attempt <? 1
           then Responded (Response 503 None)
           else Failed (Timeout "Request timed out after 30 seconds")).

(** 401 with a JSON error document. *)
Definition expired : YazioClient :=
  yazio (fun _ _ =>
           Responded (Response 401 (Some (JObject [("error", JString "invalid_grant")])))).

(** 401 with the empty JSON object as body. *)
Definition expired_bare : YazioClient :=
  yazio (fun _ _ => Responded (Response 401 (Some (JObject [])))).

(** 401 with the JSON document [null] as body. *)
Definition expired_null : YazioClient :=
  yazio (fun _ _ => Responded (Response 401 (Some JNull))).

Definition user_url : string := "https://yzapi.yazio.com/v15/user".

Lemma get_retries_server_errors_witness :
  ((2 + 1 <= 3)%nat ->
     get recovering "/user" MAX_RETRIES =
       (Ret (Some (Response 200 (Some (JObject [("success", JBool true)])))),
        backoff_trace user_url 2) /\
     requests (backoff_trace user_url 2) = replicate (2 + 1) user_url /\
     sleeps (backoff_trace user_url 2) = (fun k => 2 ^ k) <$> seqZ 0 2) /\
  ((2 + 1 > 3)%nat ->
     exists resp,
       session_get recovering user_url 2 = Responded resp /\
       get recovering "/user" MAX_RETRIES =
         (Raise (APIError (http_error_message (status_code resp) user_url)
                          (status_code resp) user_url),
          backoff_trace user_url 2) /\
       requests (backoff_trace user_url 2) = replicate 3 user_url /\
       sleeps (backoff_trace user_url 2) = [1; 2]).
Proof.
  apply (get_retries_server_errors recovering "/user" user_url 2
           (Response 200 (Some (JObject [("success", JBool true)])))).
  - reflexivity.
  - intros k Hk. exists (Response 503 (Some (JObject [("error", JString "Service unavailable")]))).
    cbn. rewrite (proj2 (Z.ltb_lt k 2)) by lia. split; [reflexivity|lia].
  - reflexivity.
  - reflexivity.
Defined.

Lemma get_reraises_transport_error_witness :
  get unreachable "/user" 3 =
    (Raise (RequestException "connection reset"), backoff_trace user_url (3 - 1)).
Proof.
  apply (get_reraises_transport_error unreachable "/user" user_url 3
           (fun _ => "connection reset")).
  - reflexivity.
  - lia.
  - intros k Hk. reflexivity.
Defined.

(** C5 as stated fails: with every connection reset, what leaves [get]
    after the three attempts is the transport exception, not an
    [APIError]. *)
Lemma get_transport_error_counterexample :
  (forall k, session_get unreachable user_url k
             = Failed (RequestException "connection reset")) /\
  get unreachable "/user" MAX_RETRIES =
    (Raise (RequestException "connection reset"),
     [HttpGet user_url; Sleep 1; HttpGet user_url; Sleep 2; HttpGet user_url]) /\
  ~ exists message status url,
      (get unreachable "/user" MAX_RETRIES).1 = Raise (APIError message status url).
Proof.
  split; [done|]. split; [reflexivity|].
  intros (message & status & url & Habs). discriminate Habs.
Qed.

Lemma get_propagates_timeout_witness :
  get hanging "/user" 3 =
    (Raise (Timeout "Request timed out after 30 seconds"),
     pauses user_url 0 1 ++ [HttpGet user_url]).
Proof.
  apply (get_propagates_timeout hanging "/user" user_url 3 1
           "Request timed out after 30 seconds").
  - reflexivity.
  - lia.
  - intros k Hk. assert (k = 0) as -> by lia. reflexivity.
  - reflexivity.
Defined.

Lemma get_unauthorized_not_retried_witness :
  let r := Response 401 (Some (JObject [("error", JString "invalid_grant")])) in
  get expired "/user" 3 =
    (Raise (unauthorized user_url r), pauses user_url 0 0 ++ [HttpGet user_url]) /\
  (body r = None ->
   unauthorized user_url r = AuthenticationError token_expired_message) /\
  (forall data,
     body r = Some data ->
     py_in "error" data = Ret true \/
     (py_in "error" data = Ret false /\ py_in "message" data = Ret true) ->
     unauthorized user_url r = AuthenticationError token_expired_message) /\
  (forall data,
     body r = Some data ->
     py_in "error" data = Ret false ->
     py_in "message" data = Ret false ->
     unauthorized user_url r = AuthenticationError (http_error_message 401 user_url)) /\
  instructs_login token_expired_message = true.
Proof.
  apply (get_unauthorized_not_retried expired "/user" user_url 3 0
           (Response 401 (Some (JObject [("error", JString "invalid_grant")])))).
  - reflexivity.
  - lia.
  - intros k Hk. lia.
  - reflexivity.
  - reflexivity.
Defined.

(** C6 as stated fails: a 401 whose body is the empty JSON object makes
    [get] raise an [AuthenticationError] whose message only names the
    status and the URL. *)
Lemma get_unauthorized_counterexample :
  session_get expired_bare user_url 0 = Responded (Response 401 (Some (JObject []))) /\
  get expired_bare "/user" MAX_RETRIES =
    (Raise (AuthenticationError
              "HTTP 401 error for URL: https://yzapi.yazio.com/v15/user"),
     [HttpGet user_url]) /\
  instructs_login "HTTP 401 error for URL: https://yzapi.yazio.com/v15/user" = false.
Proof. split; [|split]; reflexivity. Qed.

(** A 401 whose body is the JSON document [null]: the [TypeError] of
    the membership test leaves [get]. *)
Example get_unauthorized_null_body :
  get expired_null "/user" MAX_RETRIES =
    (Raise (TypeError "argument is not iterable"), [HttpGet user_url]).
Proof. reflexivity. Qed.

(** The run of the test suite: 503, 503, 200. *)
Example get_recovering :
  get recovering "/test" MAX_RETRIES =
    (Ret (Some (Response 200 (Some (JObject [("success", JBool true)])))),
     [HttpGet "https://yzapi.yazio.com/v15/test"; Sleep 1;
      HttpGet "https://yzapi.yazio.com/v15/test"; Sleep 2;
      HttpGet "https://yzapi.yazio.com/v15/test"]).
Proof. reflexivity. Qed.

End ClientSpec.


(** ** The batch nutrient fetch *)

Module ExportNutrientsSpec.
Import Constants Client Utils ExportNutrients.

(** The merge loop: a key of [errors] gets the empty dict, any other
    key keeps what [results] had. *)
Lemma merge_lookup (results : gmap string nutrient_values) (failed : list string)
    (n : string) :
  foldl (fun results nutrient => <[nutrient := []]> results) results failed !! n =
    if decide (n ∈ failed) then Some [] else results !! n.
Proof.
  revert results. induction failed as [|k failed IH]; intros results.
  - cbn. rewrite decide_False; [done|]. by intros ?%elem_of_nil.
  - cbn [foldl]. rewrite IH. destruct (decide (n ∈ failed)) as [Hin|Hin].
    + rewrite decide_True; [done|]. by apply elem_of_cons; right.
    + destruct (decide (k = n)) as [->|Hne].
      * rewrite lookup_insert_eq. rewrite decide_True; [done|].
        by apply elem_of_cons; left.
      * rewrite lookup_insert_ne by done. rewrite decide_False; [done|].
        intros [?|?]%elem_of_cons; congruence.
Qed.

Lemma elem_of_keys {A} (m : gmap string A) (n : string) :
  n ∈ (map_to_list m).*1 <-> is_Some (m !! n).
Proof.
  rewrite list_elem_of_fmap. split.
  - intros ([k v] & -> & Hkv). apply elem_of_map_to_list in Hkv. by exists v.
  - intros [v Hv]. exists (n, v). split; [done|]. by apply elem_of_map_to_list.
Qed.

(** What [fetch_multiple] returns, key by key. *)
Lemma fetch_multiple_lookup client nutrients start end_ max_workers order :
  0 < max_workers ->
  order ≡ₚ seq 0 (length nutrients) ->
  exists results,
    fetch_multiple client nutrients start end_ max_workers order = Ret results /\
    forall n,
      results !! n =
        if decide (n ∈ nutrients)
        then match fetch_nutrient client n start end_ with
             | Ret values => Some values
             | Raise _ => Some []
             end
        else None.
Proof.
  intros Hw Hperm. unfold fetch_multiple.
  destruct (UtilsSpec.fetch_concurrent_returns
              nutrients (fetch_task client start end_) max_workers order Hw Hperm)
    as (successes & errors & -> & Hres & Herr).
  cbn. eexists. split; [done|]. intros n.
  rewrite merge_lookup, Hres. unfold fetch_task in *.
  destruct (decide (n ∈ (map_to_list errors).*1)) as [Hin|Hin];
    rewrite elem_of_keys, Herr in Hin.
  - destruct (fetch_nutrient client n start end_); [by destruct Hin as [? [=]]|].
    destruct (decide (n ∈ nutrients)); [done|by destruct Hin as [? [=]]].
  - destruct (fetch_nutrient client n start end_); [done|].
    destruct (decide (n ∈ nutrients)); [|done].
    destruct Hin. by eexists.
Qed.

(** C10.  [fetch_multiple] returns a map whose keys are exactly the
    requested nutrients; a nutrient whose fetch raised is bound to the
    empty dict, as is a nutrient whose fetch returned no data, so the
    two cannot be told apart in the result. *)
Theorem fetch_multiple_hides_failures
    client nutrients start end_ max_workers order :
  0 < max_workers ->
  order ≡ₚ seq 0 (length nutrients) ->
  exists results,
    fetch_multiple client nutrients start end_ max_workers order = Ret results /\
    dom results = list_to_set nutrients /\
    (forall n e,
       n ∈ nutrients ->
       fetch_nutrient client n start end_ = Raise e ->
       results !! n = Some []) /\
    (forall n values,
       n ∈ nutrients ->
       fetch_nutrient client n start end_ = Ret values ->
       results !! n = Some values) /\
    (forall failed empty e,
       failed ∈ nutrients -> empty ∈ nutrients ->
       fetch_nutrient client failed start end_ = Raise e ->
       fetch_nutrient client empty start end_ = Ret [] ->
       results !! failed = results !! empty).
Proof.
  intros Hw Hperm.
  destruct (fetch_multiple_lookup client nutrients start end_ max_workers order
              Hw Hperm) as (results & Hrun & Hlookup).
  exists results. split; [done|]. split; [|split; [|split]].
  - apply set_eq. intros n.
    rewrite elem_of_dom, elem_of_list_to_set, Hlookup.
    destruct (decide (n ∈ nutrients)) as [Hin|Hin].
    + split; [done|]. intros _. by destruct (fetch_nutrient client n start end_).
    + split; [by intros ?%is_Some_None|done].
  - intros n e Hin Hraise. by rewrite Hlookup, decide_True, Hraise.
  - intros n values Hin Hret. by rewrite Hlookup, decide_True, Hret.
  - intros failed empty e Hf He Hraise Hret.
    by rewrite !Hlookup, !decide_True, Hraise, Hret.
Qed.

(** The service has vitamin D and times out on iron. *)
Definition patchy : YazioClient :=
  {| base_url := BASE_URL;
     api_version := API_VERSION;
     session_get := fun url _ =>
       if str_contains "nutrient=vitamin.d" url
       then Responded (Response 200 (Some (JObject [("2024-01-15", JNumber "12.5");
                                                    ("2024-01-16", JNull)])))
       else Failed (Timeout "timed out") |}.

Example fetch_multiple_patchy :
  fetch_multiple patchy ["vitamin.d"; "mineral.iron"] "2024-01-01" "2024-01-31"
                 NUTRIENT_WORKERS [1; 0]%nat
  = Ret (<["mineral.iron" := []]> {["vitamin.d" := [("2024-01-15", JNumber "12.5")]]}).
Proof. vm_compute. reflexivity. Qed.

Lemma fetch_multiple_hides_failures_witness :
  exists results,
    fetch_multiple patchy ["vitamin.d"; "mineral.iron"] "2024-01-01" "2024-01-31"
                   NUTRIENT_WORKERS [1; 0]%nat = Ret results /\
    dom results = list_to_set ["vitamin.d"; "mineral.iron"] /\
    (forall n e,
       n ∈ ["vitamin.d"; "mineral.iron"] ->
       fetch_nutrient patchy n "2024-01-01" "2024-01-31" = Raise e ->
       results !! n = Some []) /\
    (forall n values,
       n ∈ ["vitamin.d"; "mineral.iron"] ->
       fetch_nutrient patchy n "2024-01-01" "2024-01-31" = Ret values ->
       results !! n = Some values) /\
    (forall failed empty e,
       failed ∈ ["vitamin.d"; "mineral.iron"] ->
       empty ∈ ["vitamin.d"; "mineral.iron"] ->
       fetch_nutrient patchy failed "2024-01-01" "2024-01-31" = Raise e ->
       fetch_nutrient patchy empty "2024-01-01" "2024-01-31" = Ret [] ->
       results !! failed = results !! empty).
Proof.
  apply (fetch_multiple_hides_failures patchy ["vitamin.d"; "mineral.iron"]
           "2024-01-01" "2024-01-31" NUTRIENT_WORKERS [1; 0]%nat).
  - reflexivity.
  - apply perm_swap.
Defined.

End ExportNutrientsSpec.


(** ** The discovery scanner *)

Module ExportDaysSpec.
Import Constants Client Utils ExportDays.

(** A calendar month is a pair of a year and a month number. *)
Definition next_month (ym : Z * Z) : Z * Z :=
  if ym.2 =? 12 then (ym.1 + 1, 1) else (ym.1, ym.2 + 1).

(** [n] consecutive months, from [ym] on. *)
Fixpoint months_from (n : nat) (ym : Z * Z) : list (Z * Z) :=
  match n with
  | O => []
  | S n => ym :: months_from n (next_month ym)
  end.

(** The months from the start month through the month of [today]. *)
Definition months_between (today : date) (start_year start_month : Z)
  : list (Z * Z) :=
  months_from (Z.to_nat (months_to_scan today start_year start_month))
              (start_year, start_month).

(** The place of a month on the line of months. *)
Definition month_index (ym : Z * Z) : Z := 12 * ym.1 + ym.2.

(** The query for one month: from its first day to its last. *)
Definition month_query (ym : Z * Z) : string :=
  discovery_endpoint
    (strftime_ymd (Date ym.1 ym.2 1))
    (strftime_ymd (Date ym.1 ym.2 (monthrange_days ym.1 ym.2))).

(** What the query of one month yields. *)
Definition month_dates (client : YazioClient) (ym : Z * Z) : list json :=
  match (discover_month client ym.1 ym.2).1 with
  | Ret dates => dates
  | Raise _ => []
  end.

Lemma monthrange_days_table (y m : Z) :
  1 <= m <= 12 ->
  monthrange_days y m =
    if m =? 2 then (if isleap y then 29 else 28)
    else if (m =? 4) || (m =? 6) || (m =? 9) || (m =? 11) then 30
    else 31.
Proof.
  intros Hm.
  assert (m = 1 \/ m = 2 \/ m = 3 \/ m = 4 \/ m = 5 \/ m = 6 \/ m = 7 \/
          m = 8 \/ m = 9 \/ m = 10 \/ m = 11 \/ m = 12) as Hcases by lia.
  unfold monthrange_days.
  repeat (destruct Hcases as [->|Hcases]); try subst m; cbn;
    try done; by destruct (isleap y).
Qed.

Lemma monthrange_days_bounds (y m : Z) :
  1 <= m <= 12 -> 28 <= monthrange_days y m <= 31.
Proof.
  intros Hm. rewrite monthrange_days_table by done.
  repeat case_match; lia.
Qed.

Lemma discover_month_query client (y m : Z) :
  1 <= y <= 9999 -> 1 <= m <= 12 ->
  (discover_month client y m).2 = [month_query (y, m)].
Proof.
  intros Hy Hm. pose proof (monthrange_days_bounds y m Hm) as Hd.
  unfold discover_month, new_date.
  assert ((1 <=? y) && (y <=? 9999) = true) as -> by lia.
  assert ((1 <=? m) && (m <=? 12) = true) as -> by lia.
  assert ((1 <=? 1) && (1 <=? monthrange_days y m) = true) as -> by lia.
  assert ((1 <=? monthrange_days y m) && (monthrange_days y m <=? monthrange_days y m) = true)
    as -> by lia.
  done.
Qed.

Lemma next_month_index ym :
  1 <= ym.2 <= 12 ->
  month_index (next_month ym) = month_index ym + 1 /\
  1 <= (next_month ym).2 <= 12 /\
  ym.1 <= (next_month ym).1.
Proof.
  destruct ym as [y m]. unfold next_month, month_index. cbn. intros Hm.
  destruct (m =? 12) eqn:H12; cbn; lia.
Qed.

Lemma tuple_le_index (a b : Z * Z) :
  1 <= a.2 <= 12 -> 1 <= b.2 <= 12 ->
  tuple_le a b = true <-> month_index a <= month_index b.
Proof. unfold tuple_le, month_index. lia. Qed.

Lemma months_from_length n ym : length (months_from n ym) = n.
Proof. revert ym. induction n as [|n IH]; intros ym; cbn; [done|by rewrite IH]. Qed.

(** The months of the list are the [n] points of the line of months
    that start at [ym]. *)
Lemma months_from_elem n ym (x : Z * Z) :
  1 <= ym.2 <= 12 ->
  x ∈ months_from n ym <->
  1 <= x.2 <= 12 /\ month_index ym <= month_index x < month_index ym + Z.of_nat n.
Proof.
  revert ym. induction n as [|n IH]; intros ym Hm.
  - cbn. rewrite elem_of_nil. lia.
  - cbn [months_from]. rewrite elem_of_cons.
    destruct (next_month_index ym Hm) as (Hidx & Hm' & _).
    rewrite IH by done. rewrite Hidx. split.
    + intros [->|H]; lia.
    + intros [Hx Hi].
      destruct (decide (month_index x = month_index ym)) as [Heq|Hne]; [left|right; lia].
      destruct x as [y m], ym as [y0 m0]. unfold month_index in *. cbn in *.
      f_equal; lia.
Qed.

(** They come in strictly increasing order. *)
Lemma months_from_sorted n ym :
  1 <= ym.2 <= 12 ->
  StronglySorted (fun a b => tuple_le b a = false) (months_from n ym).
Proof.
  revert ym. induction n as [|n IH]; intros ym Hm; cbn; constructor.
  - apply IH. by apply next_month_index.
  - apply Forall_forall. intros x Hx.
    apply months_from_elem in Hx as [Hxm Hxi]; [|by apply next_month_index].
    destruct (next_month_index ym Hm) as (Hidx & _).
    apply not_true_is_false. rewrite tuple_le_index by done. lia.
Qed.

(** Each month of the list is followed by the next month of the
    calendar. *)
Lemma months_from_next n ym (k : nat) (a b : Z * Z) :
  months_from n ym !! k = Some a ->
  months_from n ym !! S k = Some b ->
  b = next_month a.
Proof.
  revert n ym. induction k as [|k IH]; intros [|n] ym; cbn; try done.
  - destruct n; cbn; [done|]. congruence.
  - apply IH.
Qed.

(** The loop visits [n] months when [n] months are left to scan. *)
Lemma scan_visits client today (n : nat) :
  forall fuel cy cm acc,
    1 <= month today <= 12 -> year today <= 9999 ->
    1 <= cy -> 1 <= cm <= 12 ->
    Z.of_nat n = months_to_scan today cy cm ->
    (n < fuel)%nat ->
    (forall ym, ym ∈ months_from n (cy, cm) ->
                exists dates, (discover_month client ym.1 ym.2).1 = Ret dates) ->
    scan fuel client today cy cm acc =
      Some (Ret (acc ++ concat (month_dates client <$> months_from n (cy, cm))),
            month_query <$> months_from n (cy, cm)).
Proof.
  induction n as [|n IH]; intros fuel cy cm acc Htm Hty Hcy Hcm Hn Hfuel Hok;
    (destruct fuel as [|fuel]; [lia|]); cbn [scan]; unfold months_to_scan in Hn.
  - assert (tuple_le (cy, cm) (year today, month today) = false) as ->
      by (unfold tuple_le; cbn; lia).
    cbn. by rewrite app_nil_r.
  - assert (tuple_le (cy, cm) (year today, month today) = true) as ->
      by (unfold tuple_le; cbn; lia).
    destruct (Hok (cy, cm)) as [dates Hdates]; [by left|]. cbn in Hdates.
    pose proof (discover_month_query client cy cm) as Hquery.
    destruct (discover_month client cy cm) as [result queried] eqn:Hdm.
    cbn in Hdates, Hquery. subst result. rewrite Hquery in * by lia. clear Hquery.
    assert (match dates with [] => acc | _ :: _ => acc ++ dates end = acc ++ dates)
      as -> by (destruct dates; [by rewrite app_nil_r|done]).
    assert ((if cm + 1 >? 12 then (cy + 1, 1) else (cy, cm + 1)) = next_month (cy, cm))
      as Hnext.
    { unfold next_month. cbn. destruct (cm =? 12) eqn:H12.
      - by rewrite (proj2 (Z.gtb_gt _ _)) by lia.
      - assert ((cm + 1 >? 12) = false) as -> by lia. done. }
    destruct (next_month_index (cy, cm) Hcm) as (Hidx & Hm' & Hy').
    unfold month_index in Hidx.
    assert (forall ym, ym ∈ months_from n (next_month (cy, cm)) ->
                       exists dates, (discover_month client ym.1 ym.2).1 = Ret dates)
      as Hlater by (intros ym Hym; apply Hok; by right).
    rewrite Hnext. cbn [months_from]. destruct (next_month (cy, cm)) as [cy' cm'].
    cbn [fst snd] in *.
    rewrite (IH fuel cy' cm' (acc ++ dates)); try done; try lia.
    + cbn. unfold month_dates at 2. cbn. rewrite Hdm. by rewrite app_assoc.
    + unfold months_to_scan. lia.
Qed.

Lemma discover_month_returns_valid client (y m : Z) dates :
  (discover_month client y m).1 = Ret dates ->
  1 <= y <= 9999 /\ 1 <= m <= 12.
Proof.
  unfold discover_month, new_date.
  destruct ((1 <=? y) && (y <=? 9999)) eqn:Hy; cbn; [|done].
  destruct ((1 <=? m) && (m <=? 12)) eqn:Hm; cbn; [|done].
  intros _. lia.
Qed.

(** The loop ends within the iterations [auto_discover_months] gives
    it, whatever the start and whatever the service does. *)
Lemma scan_terminates client today (n : nat) :
  forall fuel cy cm acc,
    1 <= month today <= 12 ->
    months_to_scan today cy cm <= Z.of_nat n ->
    (n < fuel)%nat ->
    is_Some (scan fuel client today cy cm acc).
Proof.
  induction n as [|n IH]; intros fuel cy cm acc Htm Hn Hfuel;
    (destruct fuel as [|fuel]; [lia|]); cbn [scan];
    (destruct (tuple_le (cy, cm) (year today, month today)) eqn:Hle; [|by eexists]);
    (destruct (discover_month client cy cm) as [[dates|e] queried] eqn:Hdm;
       [|by eexists]);
    (destruct (discover_month_returns_valid client cy cm dates) as [Hcy Hcm];
       [by rewrite Hdm|]);
    apply (tuple_le_index (cy, cm) (year today, month today)) in Hle; try done;
    unfold month_index, months_to_scan in *; cbn [fst snd] in *.
  - lia.
  - assert ((if cm + 1 >? 12 then (cy + 1, 1) else (cy, cm + 1)) = next_month (cy, cm))
      as ->.
    { unfold next_month. cbn. destruct (cm =? 12) eqn:H12.
      - by rewrite (proj2 (Z.gtb_gt _ _)) by lia.
      - assert ((cm + 1 >? 12) = false) as -> by lia. done. }
    destruct (next_month_index (cy, cm) Hcm) as (Hidx & Hm' & _).
    unfold month_index in Hidx. destruct (next_month (cy, cm)) as [cy' cm'].
    cbn [fst snd] in *.
    edestruct (IH fuel cy' cm') as [[result later] ->]; [done|lia|lia|by eexists].
Qed.

Lemma auto_discover_months_terminates client today start_year start_month :
  1 <= month today <= 12 ->
  is_Some (auto_discover_months client today start_year start_month).
Proof.
  intros Htm. unfold auto_discover_months.
  apply (scan_terminates client today
           (Z.to_nat (months_to_scan today start_year start_month))); lia.
Qed.

(** C3.  From a start month at or before the current month,
    [auto_discover_months] queries the months of [months_between], one
    query each and in this order, each query running from the first to
    the last day of its month, and returns the dates of the months'
    results, concatenated in this order.  The months are the calendar
    months from the start month to the current month, in strictly
    increasing order, each followed by its successor (January of the
    next year after December); February has 29 days in leap years. *)
Theorem auto_discover_months_scans_every_month
    client today start_year start_month :
  1 <= year today <= 9999 -> 1 <= month today <= 12 ->
  1 <= start_year -> 1 <= start_month <= 12 ->
  tuple_le (start_year, start_month) (year today, month today) = true ->
  (forall ym, ym ∈ months_between today start_year start_month ->
              exists dates, (discover_month client ym.1 ym.2).1 = Ret dates) ->
  let months := months_between today start_year start_month in
  auto_discover_months client today start_year start_month =
    Some (Ret (concat (month_dates client <$> months)), month_query <$> months) /\
  (forall ym, ym ∈ months <->
              1 <= ym.2 <= 12 /\
              tuple_le (start_year, start_month) ym = true /\
              tuple_le ym (year today, month today) = true) /\
  StronglySorted (fun a b => tuple_le b a = false) months /\
  (forall (k : nat) a b,
     months !! k = Some a -> months !! S k = Some b -> b = next_month a) /\
  (forall ym, ym ∈ months ->
     month_query ym =
       discovery_endpoint
         (strftime_ymd (Date ym.1 ym.2 1))
         (strftime_ymd
            (Date ym.1 ym.2
               (if ym.2 =? 2 then (if isleap ym.1 then 29 else 28)
                else if (ym.2 =? 4) || (ym.2 =? 6) || (ym.2 =? 9) || (ym.2 =? 11)
                     then 30 else 31)))).
Proof.
  intros Hty Htm Hsy Hsm Hle Hok months.
  apply (tuple_le_index (start_year, start_month) (year today, month today)) in Hle;
    [|done|done]. unfold month_index in Hle. cbn in Hle.
  assert (0 <= months_to_scan today start_year start_month) as Hn
    by (unfold months_to_scan; lia).
  assert (forall ym, ym ∈ months <->
            1 <= ym.2 <= 12 /\
            tuple_le (start_year, start_month) ym = true /\
            tuple_le ym (year today, month today) = true) as Helem.
  { intros ym. unfold months, months_between. rewrite months_from_elem by done.
    rewrite Z2Nat.id by done. unfold months_to_scan, month_index. cbn [fst snd].
    split.
    - intros [Hm Hi]. rewrite !tuple_le_index by done.
      unfold month_index. cbn [fst snd]. lia.
    - intros (Hm & H1 & H2). rewrite !tuple_le_index in H1, H2 by done.
      unfold month_index in *. cbn [fst snd] in *. lia. }
  split; [|split; [done|split; [|split]]].
  - unfold auto_discover_months.
    rewrite (scan_visits client today
               (Z.to_nat (months_to_scan today start_year start_month)));
      try done; try lia.
  - by apply months_from_sorted.
  - intros k a b. apply months_from_next.
  - intros ym [Hm _]%Helem. unfold month_query.
    by rewrite monthrange_days_table.
Qed.

(** *** The run of the test suite: today is 2024-02-15, the scan starts
    in November 2023, and only that month has data. *)

Definition november_only : YazioClient :=
  {| base_url := BASE_URL;
     api_version := API_VERSION;
     session_get := fun url _ =>
       if str_contains "start=2023-11-01" url
       then Responded (Response 200 (Some (JArray [JObject [("date", JString "2023-11-15")]])))
       else Responded (Response 200 (Some (JArray []))) |}.

Example auto_discover_months_crosses_year_boundary :
  auto_discover_months november_only (Date 2024 2 15) 2023 11 =
    Some (Ret [JString "2023-11-15"],
          ["/user/consumed-items/nutrients-daily?start=2023-11-01&end=2023-11-30";
           "/user/consumed-items/nutrients-daily?start=2023-12-01&end=2023-12-31";
           "/user/consumed-items/nutrients-daily?start=2024-01-01&end=2024-01-31";
           "/user/consumed-items/nutrients-daily?start=2024-02-01&end=2024-02-29"]).
Proof. vm_compute. reflexivity. Qed.

Lemma auto_discover_months_scans_every_month_witness :
  let months := months_between (Date 2024 2 15) 2023 11 in
  auto_discover_months november_only (Date 2024 2 15) 2023 11 =
    Some (Ret (concat (month_dates november_only <$> months)),
          month_query <$> months) /\
  (forall ym, ym ∈ months <->
              1 <= ym.2 <= 12 /\
              tuple_le (2023, 11) ym = true /\
              tuple_le ym (2024, 2) = true) /\
  StronglySorted (fun a b => tuple_le b a = false) months /\
  (forall (k : nat) a b,
     months !! k = Some a -> months !! S k = Some b -> b = next_month a) /\
  (forall ym, ym ∈ months ->
     month_query ym =
       discovery_endpoint
         (strftime_ymd (Date ym.1 ym.2 1))
         (strftime_ymd
            (Date ym.1 ym.2
               (if ym.2 =? 2 then (if isleap ym.1 then 29 else 28)
                else if (ym.2 =? 4) || (ym.2 =? 6) || (ym.2 =? 9) || (ym.2 =? 11)
                     then 30 else 31)))).
Proof.
  apply (auto_discover_months_scans_every_month
           november_only (Date 2024 2 15) 2023 11).
  - cbn. lia.
  - cbn. lia.
  - lia.
  - lia.
  - reflexivity.
  - intros ym Hym.
    change (months_between (Date 2024 2 15) 2023 11)
      with [(2023, 11); (2023, 12); (2024, 1); (2024, 2)] in Hym.
    repeat (apply elem_of_cons in Hym as [->|Hym]);
      [eexists; vm_compute; reflexivity ..|by apply elem_of_nil in Hym].
Defined.

(** ** The task decomposer *)

(** [results[d][dtype]], when both keys are there. *)
Definition cell_at (results : gmap string (gmap string cell)) (d dtype : string)
  : option cell :=
  results !! d ≫= fun of_date => of_date !! dtype.

(** What the fetcher registered for [dtype] leaves for the date [d]. *)
Definition fetched (client : YazioClient) (d dtype : string) : option cell :=
  match registry_lookup dtype fetch_functions with
  | Some fetch =>
      Some (match fetch client d with
            | Ret v => Value v
            | Raise e => Error e
            end)
  | None => None
  end.

Definition known (dtype : string) : Prop :=
  is_Some (registry_lookup dtype fetch_functions).

Lemma validate_known data_types :
  (forall dtype, dtype ∈ data_types -> known dtype) ->
  validate data_types = Ret tt.
Proof.
  induction data_types as [|dtype rest IH]; intros Hknown; [done|].
  cbn [validate]. destruct (Hknown dtype) as [fetch ->]; [by left|].
  apply IH. intros k Hk. apply Hknown. by right.
Qed.

Lemma validate_unknown data_types dtype :
  dtype ∈ data_types -> ~ known dtype ->
  exists bad, bad ∈ data_types /\ ~ known bad /\
              validate data_types = Raise (unknown_data_type bad).
Proof.
  induction data_types as [|k rest IH]; intros Hin Hunknown;
    [by apply elem_of_nil in Hin|].
  cbn [validate]. destruct (registry_lookup k fetch_functions) as [fetch|] eqn:Hk.
  - apply elem_of_cons in Hin as [->|Hin].
    + destruct Hunknown. by exists fetch.
    + destruct (IH Hin Hunknown) as (bad & Hbad & Hnot & Hraise).
      exists bad. split; [by right|done].
  - exists k. split; [by left|]. split; [|done].
    unfold known. rewrite Hk. by intros ?%is_Some_None.
Qed.

Lemma elem_of_make_tasks dates data_types (d dtype : string) :
  (d, dtype) ∈ make_tasks dates data_types <-> d ∈ dates /\ dtype ∈ data_types.
Proof.
  unfold make_tasks. rewrite list_elem_of_bind. split.
  - intros (d' & Hin & Hd). apply list_elem_of_bind in Hin as (k & Hin & Hk).
    apply list_elem_of_singleton in Hin. by simplify_eq.
  - intros [Hd Hk]. exists d. split; [|done].
    apply list_elem_of_bind. exists dtype. split; [|done].
    by apply list_elem_of_singleton.
Qed.

(** One regrouping loop over entries with distinct keys whose dates are
    keys of [results]: it ends without [KeyError], keeps the dates, and
    binds exactly the entries. *)
Lemma store_entries (entries : list ((string * string) * cell)) :
  forall results : gmap string (gmap string cell),
    NoDup entries.*1 ->
    (forall d dtype, (d, dtype) ∈ entries.*1 -> is_Some (results !! d)) ->
    exists results',
      foldl store (Ret results) entries = Ret results' /\
      dom results' = dom results /\
      forall d dtype,
        cell_at results' d dtype =
          match (list_to_map entries : gmap (string * string) cell) !! (d, dtype) with
          | Some c => Some c
          | None => cell_at results d dtype
          end.
Proof.
  induction entries as [|[[d0 k0] c0] rest IH]; intros results Hnodup Hdates.
  - exists results. by cbn.
  - apply NoDup_cons in Hnodup as [Hfresh Hnodup].
    destruct (Hdates d0 k0) as [of_date Hof_date]; [by left|].
    cbn [foldl]. unfold store at 2. cbn. rewrite Hof_date.
    set (results1 := <[d0 := <[k0 := c0]> of_date]> results).
    assert (forall d, is_Some (results1 !! d) <-> is_Some (results !! d)) as Hsame.
    { intros d. unfold results1. destruct (decide (d0 = d)) as [<-|Hne].
      - rewrite lookup_insert_eq. split; by eauto.
      - by rewrite lookup_insert_ne. }
    destruct (IH results1 Hnodup) as (results' & Hrun & Hdom & Hcells).
    { intros d dtype Hin. apply Hsame, (Hdates d dtype). by right. }
    exists results'. split; [done|]. split.
    { rewrite Hdom. unfold results1. apply dom_insert_lookup_L. by eexists. }
    intros d dtype. rewrite Hcells.
    destruct (decide ((d0, k0) = (d, dtype))) as [Heq|Hne].
    + simplify_eq. rewrite lookup_insert_eq.
      rewrite (not_elem_of_list_to_map_1 rest) by done.
      unfold cell_at, results1. rewrite lookup_insert_eq. cbn.
      by rewrite lookup_insert_eq.
    + rewrite lookup_insert_ne by done.
      destruct (list_to_map rest !! (d, dtype)); [done|].
      unfold cell_at, results1. destruct (decide (d0 = d)) as [<-|Hd].
      * rewrite lookup_insert_eq, Hof_date. cbn.
        rewrite lookup_insert_ne; [done|congruence].
      * by rewrite lookup_insert_ne.
Qed.

(** The loop over the items of a map. *)
Lemma store_items {A} (wrap : A -> cell) (m : gmap (string * string) A)
    (results : gmap string (gmap string cell)) :
  (forall d dtype, is_Some (m !! (d, dtype)) -> is_Some (results !! d)) ->
  exists results',
    foldl store (Ret results) (prod_map id wrap <$> map_to_list m) = Ret results' /\
    dom results' = dom results /\
    forall d dtype,
      cell_at results' d dtype =
        match m !! (d, dtype) with
        | Some a => Some (wrap a)
        | None => cell_at results d dtype
        end.
Proof.
  intros Hdates.
  assert ((prod_map id wrap <$> map_to_list m).*1 = (map_to_list m).*1) as Hkeys.
  { rewrite <- list_fmap_compose. apply list_fmap_ext. by intros _ [k a] _. }
  destruct (store_entries (prod_map id wrap <$> map_to_list m) results)
    as (results' & Hrun & Hdom & Hcells).
  - rewrite Hkeys. apply NoDup_fst_map_to_list.
  - intros d dtype. rewrite Hkeys.
    intros ([k a] & Hk & Hin)%list_elem_of_fmap. cbn in Hk. subst k.
    apply elem_of_map_to_list in Hin. apply (Hdates d dtype). by exists a.
  - exists results'. split; [done|]. split; [done|]. intros d dtype.
    rewrite Hcells, list_to_map_fmap, list_to_map_to_list, lookup_fmap.
    by destruct (m !! (d, dtype)).
Qed.

(** The result before the regrouping: every date bound to [{}]. *)
Definition empty_days (dates : list string) : gmap string (gmap string cell) :=
  list_to_map ((fun date => (date, ∅)) <$> dates).

Lemma empty_days_dom dates : dom (empty_days dates) = list_to_set dates.
Proof.
  unfold empty_days. rewrite dom_list_to_map_L. f_equal.
  rewrite <- list_fmap_compose. apply list_fmap_id.
Qed.

Lemma empty_days_cell dates d dtype : cell_at (empty_days dates) d dtype = None.
Proof.
  unfold cell_at. destruct (empty_days dates !! d) as [of_date|] eqn:Hd; [|done].
  apply elem_of_list_to_map_2, list_elem_of_fmap in Hd as (date & Heq & _).
  by simplify_eq.
Qed.

(** What the call returns when every data type is known. *)
Lemma fetch_days_concurrent_known client dates data_types max_workers order :
  0 < max_workers ->
  order ≡ₚ seq 0 (length (make_tasks dates data_types)) ->
  (forall dtype, dtype ∈ data_types -> known dtype) ->
  exists results,
    fetch_days_concurrent client dates data_types max_workers order =
      (Ret results,
       UtilsSpec.pool_trace (make_tasks dates data_types) max_workers) /\
    dom results = list_to_set dates /\
    forall d dtype,
      cell_at results d dtype =
        if decide (d ∈ dates /\ dtype ∈ data_types)
        then fetched client d dtype
        else None.
Proof.
  intros Hw Hperm Hknown. unfold fetch_days_concurrent.
  rewrite (validate_known _ Hknown).
  destruct (UtilsSpec.fetch_concurrent_returns
              (make_tasks dates data_types) (_fetch_task client)
              max_workers order Hw Hperm)
    as (successes & errors & -> & Hres & Herr).
  fold (empty_days dates). unfold regroup.
  assert (forall d dtype,
            is_Some (successes !! (d, dtype)) \/ is_Some (errors !! (d, dtype)) ->
            d ∈ dates /\ dtype ∈ data_types) as Htask.
  { intros d dtype. rewrite Hres, Herr, <- elem_of_make_tasks.
    destruct (_fetch_task client (d, dtype)); case_decide; try done;
      intros [[? [=]]|[? [=]]]. }
  destruct (store_items Value successes (empty_days dates))
    as (results1 & -> & Hdom1 & Hcells1).
  { intros d dtype Hsome. apply elem_of_dom. rewrite empty_days_dom.
    apply elem_of_list_to_set. apply (Htask d dtype). by left. }
  destruct (store_items Error errors results1)
    as (results & -> & Hdom & Hcells).
  { intros d dtype Hsome. apply elem_of_dom. rewrite Hdom1, empty_days_dom.
    apply elem_of_list_to_set. apply (Htask d dtype). by right. }
  exists results. split; [done|]. split; [by rewrite Hdom, Hdom1, empty_days_dom|].
  intros d dtype. rewrite Hcells, Hcells1, empty_days_cell, Hres, Herr.
  unfold fetched, _fetch_task.
  destruct (decide ((d, dtype) ∈ make_tasks dates data_types)) as [Hin|Hin];
    destruct (decide (d ∈ dates /\ dtype ∈ data_types)) as [Hin'|Hin'];
    try (exfalso; rewrite elem_of_make_tasks in Hin; tauto).
  - destruct Hin' as [_ Hk]. destruct (Hknown dtype Hk) as [fetch ->].
    by destruct (fetch client d).
  - destruct (registry_lookup dtype fetch_functions) as [fetch|]; [|done].
    by destruct (fetch client d).
Qed.

(** C7.  [fetch_days_concurrent] raises exactly when a requested data
    type is not in the registry; it then raises the [ValueError] that
    names such a data type, and the pool has not been touched.
    Otherwise the result has the input dates as keys, and under each
    of them every requested data type is bound to what its fetcher
    returned, or to the exception the fetcher raised; no other data
    type is bound. *)
Theorem fetch_days_concurrent_validates_then_regroups
    client dates data_types max_workers order :
  0 < max_workers ->
  order ≡ₚ seq 0 (length (make_tasks dates data_types)) ->
  ((exists e,
      (fetch_days_concurrent client dates data_types max_workers order).1 = Raise e)
   <-> exists dtype, dtype ∈ data_types /\ ~ known dtype) /\
  ((exists dtype, dtype ∈ data_types /\ ~ known dtype) ->
   exists bad,
     bad ∈ data_types /\ ~ known bad /\
     fetch_days_concurrent client dates data_types max_workers order =
       (Raise (unknown_data_type bad), [])) /\
  ((forall dtype, dtype ∈ data_types -> known dtype) ->
   exists results trace,
     fetch_days_concurrent client dates data_types max_workers order =
       (Ret results, trace) /\
     dom results = list_to_set dates /\
     forall d, d ∈ dates ->
       exists of_date,
         results !! d = Some of_date /\
         forall dtype,
           of_date !! dtype =
             if decide (dtype ∈ data_types)
             then match registry_lookup dtype fetch_functions with
                  | Some fetch =>
                      Some (match fetch client d with
                            | Ret v => Value v
                            | Raise e => Error e
                            end)
                  | None => None
                  end
             else None).
Proof.
  intros Hw Hperm.
  assert ((exists dtype, dtype ∈ data_types /\ ~ known dtype) ->
          exists bad,
            bad ∈ data_types /\ ~ known bad /\
            fetch_days_concurrent client dates data_types max_workers order =
              (Raise (unknown_data_type bad), [])) as Hunknown.
  { intros (dtype & Hin & Hnot).
    destruct (validate_unknown data_types dtype Hin Hnot) as (bad & Hbad & Hnb & Hraise).
    exists bad. split; [done|]. split; [done|].
    unfold fetch_days_concurrent. by rewrite Hraise. }
  split; [|split; [done|]].
  - split.
    + intros [e Hraise].
      destruct (decide (Forall (fun k => is_Some (registry_lookup k fetch_functions))
                               data_types)) as [Hall|Hsome].
      * rewrite Forall_forall in Hall.
        destruct (fetch_days_concurrent_known client dates data_types max_workers
                    order Hw Hperm Hall) as (results & Hrun & _).
        rewrite Hrun in Hraise. discriminate Hraise.
      * apply not_Forall_Exists in Hsome; [|apply _].
        apply Exists_exists in Hsome as (dtype & Hin & Hnot). by exists dtype.
    + intros Hex. destruct (Hunknown Hex) as (bad & _ & _ & ->). by eexists.
  - intros Hknown.
    destruct (fetch_days_concurrent_known client dates data_types max_workers
                order Hw Hperm Hknown) as (results & Hrun & Hdom & Hcells).
    exists results, (UtilsSpec.pool_trace (make_tasks dates data_types) max_workers).
    split; [done|]. split; [done|]. intros d Hd.
    assert (is_Some (results !! d)) as [of_date Hof_date].
    { apply elem_of_dom. rewrite Hdom. by apply elem_of_list_to_set. }
    exists of_date. split; [done|]. intros dtype.
    specialize (Hcells d dtype). unfold cell_at in Hcells.
    rewrite Hof_date in Hcells. cbn in Hcells. rewrite Hcells. unfold fetched.
    destruct (decide (dtype ∈ data_types)) as [Hk|Hk].
    + by rewrite decide_True by done.
    + rewrite decide_False; [done|]. by intros [_ ?].
Qed.

(** *** A run with a failing day: the service answers 500 for the
    second of January and has data for the first. *)

Definition second_fails : YazioClient :=
  {| base_url := BASE_URL;
     api_version := API_VERSION;
     session_get := fun url _ =>
       if str_contains "date=2024-01-02" url
       then Responded (Response 500 (Some (JObject [("error", JString "Internal server error")])))
       else Responded (Response 200 (Some (JObject [("products", JArray [])]))) |}.

Example fetch_days_concurrent_invalid_data_type :
  fetch_days_concurrent second_fails ["2024-01-15"] ["consumed"; "invalid"]
                        DEFAULT_WORKERS [] =
    (Raise (ValueError
              ("Unknown data type: invalid. Must be one of " +:+
               "['consumed', 'goals', 'exercises', 'water', 'daily_summary', 'summary']")),
     []).
Proof. reflexivity. Qed.

Example fetch_days_concurrent_partial_failure :
  (fetch_days_concurrent second_fails ["2024-01-01"; "2024-01-02"] ["consumed"]
                         DEFAULT_WORKERS [1; 0]%nat).1 =
    Ret (<["2024-01-01" :=
             {["consumed" := Value (ConsumedItems (JArray []) (JArray []) (JArray []))]}]>
         {["2024-01-02" :=
             {["consumed" :=
                 Error (APIError
                          ("HTTP 500 error for URL: " +:+
                           "https://yzapi.yazio.com/v15/user/consumed-items?date=2024-01-02")
                          500
                          "https://yzapi.yazio.com/v15/user/consumed-items?date=2024-01-02")]}]}).
Proof. vm_compute. reflexivity. Qed.

Lemma fetch_days_concurrent_validates_then_regroups_witness :
  let dates := ["2024-01-01"; "2024-01-02"] in
  let data_types := ["consumed"; "goals"] in
  let order := [1; 0; 2; 3]%nat in
  ((exists e,
      (fetch_days_concurrent second_fails dates data_types 10 order).1 = Raise e)
   <-> exists dtype, dtype ∈ data_types /\ ~ known dtype) /\
  ((exists dtype, dtype ∈ data_types /\ ~ known dtype) ->
   exists bad,
     bad ∈ data_types /\ ~ known bad /\
     fetch_days_concurrent second_fails dates data_types 10 order =
       (Raise (unknown_data_type bad), [])) /\
  ((forall dtype, dtype ∈ data_types -> known dtype) ->
   exists results trace,
     fetch_days_concurrent second_fails dates data_types 10 order =
       (Ret results, trace) /\
     dom results = list_to_set dates /\
     forall d, d ∈ dates ->
       exists of_date,
         results !! d = Some of_date /\
         forall dtype,
           of_date !! dtype =
             if decide (dtype ∈ data_types)
             then match registry_lookup dtype fetch_functions with
                  | Some fetch =>
                      Some (match fetch second_fails d with
                            | Ret v => Value v
                            | Raise e => Error e
                            end)
                  | None => None
                  end
             else None).
Proof.
  apply (fetch_days_concurrent_validates_then_regroups
           second_fails ["2024-01-01"; "2024-01-02"] ["consumed"; "goals"]
           10 [1; 0; 2; 3]%nat).
  - reflexivity.
  - apply perm_swap.
Defined.

End ExportDaysSpec.


(** * Further properties of the modelled code *)

(** ** client.py: what [get] does whatever the service does *)

Module ClientMore.
Import Constants Client ClientSpec.

(** One round of the loop either ends the call with its request, or is
    retried: it sleeps and goes on with the rest. *)
Lemma get_attempts_round self url max_retries attempt rest :
  (exists result,
     get_attempts self url max_retries (attempt :: rest) = (result, [HttpGet url]) /\
     (forall r, result = Ret (Some r) ->
                session_get self url attempt = Responded r /\ ok r = true)) \/
  (attempt < max_retries - 1 /\
   get_attempts self url max_retries (attempt :: rest) =
     ((get_attempts self url max_retries rest).1,
      HttpGet url :: Sleep (2 ^ attempt) ::
        (get_attempts self url max_retries rest).2)).
Proof.
  destruct (retryable (session_get self url attempt)) eqn:Hretry.
  - destruct (Z.lt_ge_cases attempt (max_retries - 1)) as [Hlt|Hge].
    + right. split; [done|]. by apply get_attempts_retry.
    + left. eexists. split; [by apply get_attempts_exhausted|]. done.
  - left. cbn [get_attempts].
    destruct (session_get self url attempt) as [r|e] eqn:Hsent; cbn in Hretry.
    + rewrite Hretry. destruct (status_code r =? 401) eqn:H401.
      * eexists. split; [done|]. done.
      * destruct (ok r) eqn:Hok; cbn.
        -- eexists. split; [done|]. intros r' [= <-]. done.
        -- eexists. split; [done|]. done.
    + destruct e; try discriminate Hretry; eexists; (split; [done|]); done.
Qed.

(** The loop from attempt [a] on, with [n] attempts left. *)
Lemma get_attempts_shape self url max_retries (n : nat) :
  forall a,
    0 <= a ->
    a + Z.of_nat (S n) = max_retries ->
    exists k,
      a <= k < max_retries /\
      (get_attempts self url max_retries (seqZ a (Z.of_nat (S n)))).2 =
        pauses url a (k - a) ++ [HttpGet url] /\
      (forall r,
         (get_attempts self url max_retries (seqZ a (Z.of_nat (S n)))).1 = Ret (Some r) ->
         session_get self url k = Responded r /\ ok r = true).
Proof.
  induction n as [|n IH]; intros a Ha Hm; rewrite seqZ_cons by lia.
  - change (seqZ (Z.succ a) (Z.pred (Z.of_nat 1))) with (@nil Z).
    destruct (get_attempts_round self url max_retries a [])
      as [(result & -> & Hok)|[Hlt _]]; [|lia].
    exists a. split; [lia|]. rewrite Z.sub_diag. by split.
  - replace (Z.pred (Z.of_nat (S (S n)))) with (Z.of_nat (S n)) by lia.
    destruct (get_attempts_round self url max_retries a (seqZ (Z.succ a) (Z.of_nat (S n))))
      as [(result & -> & Hok)|[Hlt ->]].
    + exists a. split; [lia|]. rewrite Z.sub_diag. by split.
    + destruct (IH (Z.succ a)) as (k & Hk & Htrace & Hok); [lia|lia|].
      exists k. split; [lia|]. cbn [fst snd]. rewrite Htrace. split; [|done].
      unfold pauses. rewrite (seqZ_cons a (k - a)) by lia. rewrite bind_cons. cbn.
      by replace (Z.pred (k - a)) with (k - Z.succ a) by lia.
Qed.

(** X1.  Whatever the service does, a call of [get] either has no
    attempt to make ([max_retries <= 0]: it returns [None] without a
    request), or its trace is that of [k + 1] requests with the sleeps
    [2 ^ 0], ..., [2 ^ (k - 1)] between them, for some [k] below
    [max_retries]: never more than [max_retries] requests, and no sleep
    after the last one. *)
Theorem get_trace_shape self endpoint max_retries :
  (max_retries <= 0 /\ get self endpoint max_retries = (Ret None, [])) \/
  (exists k : nat,
     Z.of_nat k < max_retries /\
     (get self endpoint max_retries).2 =
       backoff_trace (get_url self endpoint) (Z.of_nat k) /\
     requests (get self endpoint max_retries).2 =
       replicate (S k) (get_url self endpoint) /\
     sleeps (get self endpoint max_retries).2 =
       (fun attempt => 2 ^ attempt) <$> seqZ 0 (Z.of_nat k)).
Proof.
  unfold get. destruct (Z.le_gt_cases max_retries 0) as [Hle|Hgt].
  - left. split; [done|]. by rewrite seqZ_nil.
  - right.
    destruct (get_attempts_shape self (get_url self endpoint) max_retries
                (Z.to_nat (max_retries - 1)) 0) as (k & Hk & Htrace & _); [lia|lia|].
    replace (Z.of_nat (S (Z.to_nat (max_retries - 1)))) with max_retries in Htrace by lia.
    rewrite Z.sub_0_r in Htrace. rewrite Htrace.
    fold (backoff_trace (get_url self endpoint) k).
    destruct (Z_of_nat_complete k) as [kn ->]; [lia|].
    exists kn. split; [lia|]. split; [done|].
    by rewrite requests_backoff_trace, sleeps_backoff_trace.
Qed.

(** X2.  A response that [get] returns is one the service sent in this
    call, and its status is none of 400 to 599. *)
Theorem get_returns_only_ok_responses self endpoint max_retries r :
  (get self endpoint max_retries).1 = Ret (Some r) ->
  ok r = true /\
  exists attempt,
    0 <= attempt < max_retries /\
    session_get self (get_url self endpoint) attempt = Responded r.
Proof.
  unfold get. intros Hret. destruct (Z.le_gt_cases max_retries 0) as [Hle|Hgt].
  - by rewrite seqZ_nil in Hret.
  - destruct (get_attempts_shape self (get_url self endpoint) max_retries
                (Z.to_nat (max_retries - 1)) 0) as (k & Hk & _ & Hok); [lia|lia|].
    replace (Z.of_nat (S (Z.to_nat (max_retries - 1)))) with max_retries in Hok by lia.
    destruct (Hok r Hret) as [Hsent Hr]. split; [done|]. by exists k.
Qed.

Lemma get_returns_only_ok_responses_witness :
  ok (Response 200 (Some (JObject [("success", JBool true)]))) = true /\
  exists attempt,
    0 <= attempt < 3 /\
    session_get recovering (get_url recovering "/user") attempt =
      Responded (Response 200 (Some (JObject [("success", JBool true)]))).
Proof.
  apply (get_returns_only_ok_responses recovering "/user" 3). reflexivity.
Defined.

(** *** What the message of an [APIError] names *)

Lemma prefix_append (x s : string) : String.prefix x (x +:+ s) = true.
Proof.
  induction x as [|c x IH]; [by destruct s|].
  change (String c x +:+ s) with (String c (x +:+ s)). cbn.
  by destruct (Ascii.ascii_dec c c).
Qed.

Lemma str_contains_prefix (needle s : string) :
  str_contains needle (needle +:+ s) = true.
Proof.
  destruct (needle +:+ s) eqn:Heq; cbn [str_contains];
    rewrite <- Heq, prefix_append; done.
Qed.

Lemma str_contains_append (needle a b : string) :
  str_contains needle b = true -> str_contains needle (a +:+ b) = true.
Proof.
  intros Hb. induction a as [|c a IH]; [done|].
  change (String c a +:+ b) with (String c (a +:+ b)).
  cbn [str_contains]. rewrite IH. apply orb_true_r.
Qed.

Lemma append_empty (s : string) : s +:+ "" = s.
Proof.
  induction s as [|c s IH]; [done|].
  change (String c s +:+ "") with (String c (s +:+ "")). by rewrite IH.
Qed.

Lemma http_error_message_names (status : Z) (url : string) :
  str_contains (pretty status) (http_error_message status url) = true /\
  str_contains url (http_error_message status url) = true.
Proof.
  unfold http_error_message. split.
  - apply str_contains_append, str_contains_prefix.
  - do 3 apply str_contains_append.
    rewrite <- (append_empty url) at 2. apply str_contains_prefix.
Qed.

(** X3.  A response with a status from 400 to 499 other than 401 ends
    the call at that attempt, with neither retry nor sleep: [get]
    raises an [APIError] that carries the status and the URL, and whose
    message contains the status in decimal and the full URL. *)
Theorem get_client_error_not_retried
    self endpoint url max_retries attempt r :
  url = get_url self endpoint ->
  0 <= attempt < max_retries ->
  (forall k, 0 <= k < attempt -> retryable (session_get self url k) = true) ->
  session_get self url attempt = Responded r ->
  400 <= status_code r < 500 ->
  status_code r <> 401 ->
  get self endpoint max_retries =
    (Raise (APIError (http_error_message (status_code r) url) (status_code r) url),
     pauses url 0 attempt ++ [HttpGet url]) /\
  str_contains (pretty (status_code r)) (http_error_message (status_code r) url) = true /\
  str_contains url (http_error_message (status_code r) url) = true.
Proof.
  intros -> Ha Hretry Hsent H4xx H401. split; [|apply http_error_message_names].
  unfold get. rewrite (get_attempts_reaches _ _ _ attempt) by done.
  cbn zeta. cbn [get_attempts]. rewrite Hsent. unfold ok.
  assert ((status_code r =? 401) = false) as -> by lia.
  assert ((500 <=? status_code r) && (status_code r <? 600) = false) as -> by lia.
  by assert ((400 <=? status_code r) && (status_code r <? 600) = true) as -> by lia.
Qed.

(** X4.  When every attempt is answered with a 5xx status, [get] makes
    [max_retries] requests, sleeping [2 ^ k] seconds after attempt [k]
    that is not the last, and raises the [APIError] of the last
    response: it carries that status and the URL, and its message
    contains both. *)
Theorem get_exhausts_server_errors self endpoint url max_retries resp :
  url = get_url self endpoint ->
  1 <= max_retries ->
  (forall k, 0 <= k < max_retries ->
             session_get self url k = Responded (resp k) /\
             500 <= status_code (resp k) < 600) ->
  let status := status_code (resp (max_retries - 1)) in
  get self endpoint max_retries =
    (Raise (APIError (http_error_message status url) status url),
     backoff_trace url (max_retries - 1)) /\
  str_contains (pretty status) (http_error_message status url) = true /\
  str_contains url (http_error_message status url) = true.
Proof.
  intros -> Hm H5xx status. split; [|apply http_error_message_names].
  assert (forall k, 0 <= k < max_retries ->
                    retryable (session_get self (get_url self endpoint) k) = true)
    as Hretry.
  { intros k Hk. destruct (H5xx k Hk) as [-> Hs]. cbn. lia. }
  unfold get. rewrite (get_attempts_reaches _ _ _ (max_retries - 1)) by
    (try (intros; apply Hretry); lia).
  cbn zeta. rewrite get_attempts_exhausted by (try apply Hretry; lia).
  by destruct (H5xx (max_retries - 1)) as [-> _]; [lia|].
Qed.

(** 404 on the first request. *)
Definition not_found : YazioClient :=
  yazio (fun _ _ => Responded (Response 404 (Some (JObject [("error", JString "Not found")])))).

(** 503 on every request. *)
Definition unavailable : YazioClient :=
  yazio (fun _ _ => Responded (Response 503 None)).

Lemma get_client_error_not_retried_witness :
  get not_found "/user" 3 =
    (Raise (APIError (http_error_message 404 user_url) 404 user_url),
     pauses user_url 0 0 ++ [HttpGet user_url]) /\
  str_contains (pretty 404) (http_error_message 404 user_url) = true /\
  str_contains user_url (http_error_message 404 user_url) = true.
Proof.
  apply (get_client_error_not_retried not_found "/user" user_url 3 0
           (Response 404 (Some (JObject [("error", JString "Not found")])))).
  - reflexivity.
  - lia.
  - intros k Hk. lia.
  - reflexivity.
  - cbn. lia.
  - cbn. lia.
Defined.

Lemma get_exhausts_server_errors_witness :
  get unavailable "/user" 5 =
    (Raise (APIError (http_error_message 503 user_url) 503 user_url),
     backoff_trace user_url (5 - 1)) /\
  str_contains (pretty 503) (http_error_message 503 user_url) = true /\
  str_contains user_url (http_error_message 503 user_url) = true.
Proof.
  apply (get_exhausts_server_errors unavailable "/user" user_url 5
           (fun _ => Response 503 None)).
  - reflexivity.
  - lia.
  - intros k Hk. cbn. split; [reflexivity|lia].
Defined.

End ClientMore.


(** ** export_days.py: what the scanner and the decomposer do at their edges *)

Module ExportDaysMore.
Import Constants Client Utils ExportDays ExportDaysSpec.



(** The loop stops at the first month whose query raises. *)
Lemma scan_stops client today (k : nat) :
  forall (n fuel : nat) cy cm acc bad e,
    1 <= month today <= 12 -> year today <= 9999 ->
    1 <= cy -> 1 <= cm <= 12 ->
    Z.of_nat n = months_to_scan today cy cm ->
    (n < fuel)%nat ->
    months_from n (cy, cm) !! k = Some bad ->
    (forall (j : nat) ym,
       (j < k)%nat -> months_from n (cy, cm) !! j = Some ym ->
       exists dates, (discover_month client ym.1 ym.2).1 = Ret dates) ->
    (discover_month client bad.1 bad.2).1 = Raise e ->
    scan fuel client today cy cm acc =
      Some (Raise e, month_query <$> take (S k) (months_from n (cy, cm))).
Proof.
  induction k as [|k IH];
    intros n fuel cy cm acc bad e Htm Hty Hcy Hcm Hn Hfuel Hbad Hok Hraise;
    (destruct n as [|n]; [done|]); (destruct fuel as [|fuel]; [lia|]);
    cbn [scan]; unfold months_to_scan in Hn;
    (assert (tuple_le (cy, cm) (year today, month today) = true) as ->
       by (unfold tuple_le; cbn; lia));
    pose proof (discover_month_query client cy cm) as Hquery;
    cbn [months_from lookup list_lookup] in Hbad.
  - injection Hbad as <-. cbn [fst snd] in Hraise.
    destruct (discover_month client cy cm) as [result queried].
    cbn in Hraise, Hquery. subst result. rewrite Hquery by lia. done.
  - destruct (Hok 0%nat (cy, cm)) as [dates Hdates]; [lia|done|].
    cbn [fst snd] in Hdates.
    destruct (discover_month client cy cm) as [result queried].
    cbn in Hdates, Hquery. subst result. rewrite Hquery by lia. clear Hquery.
    assert ((if cm + 1 >? 12 then (cy + 1, 1) else (cy, cm + 1)) = next_month (cy, cm))
      as Hnext.
    { unfold next_month. cbn. destruct (cm =? 12) eqn:H12.
      - by rewrite (proj2 (Z.gtb_gt _ _)) by lia.
      - assert ((cm + 1 >? 12) = false) as -> by lia. done. }
    destruct (next_month_index (cy, cm) Hcm) as (Hidx & Hm' & Hy').
    unfold month_index in Hidx.
    assert (forall (j : nat) ym,
              (j < k)%nat -> months_from n (next_month (cy, cm)) !! j = Some ym ->
              exists dates, (discover_month client ym.1 ym.2).1 = Ret dates) as Hlater.
    { intros j ym Hj Hym. apply (Hok (S j) ym); [lia|done]. }
    rewrite Hnext. cbn [months_from]. destruct (next_month (cy, cm)) as [cy' cm'].
    cbn [fst snd] in *.
    rewrite (IH n fuel cy' cm' _ bad e); try done; try lia.
    unfold months_to_scan. lia.
Qed.

(** X6.  When the months before a month all answer and the query of
    that month raises, [auto_discover_months] raises the same
    exception: the months after it are not queried, and the dates
    found before it are not returned. *)
Theorem auto_discover_months_stops_at_first_failure
    client today start_year start_month (k : nat) bad e :
  1 <= year today <= 9999 -> 1 <= month today <= 12 ->
  1 <= start_year -> 1 <= start_month <= 12 ->
  months_between today start_year start_month !! k = Some bad ->
  (forall (j : nat) ym,
     (j < k)%nat ->
     months_between today start_year start_month !! j = Some ym ->
     exists dates, (discover_month client ym.1 ym.2).1 = Ret dates) ->
  (discover_month client bad.1 bad.2).1 = Raise e ->
  auto_discover_months client today start_year start_month =
    Some (Raise e,
          month_query <$> take (S k) (months_between today start_year start_month)).
Proof.
  intros Hty Htm Hsy Hsm Hbad Hok Hraise.
  unfold auto_discover_months, months_between in *.
  assert (0 < months_to_scan today start_year start_month) as Hn.
  { apply lookup_lt_Some in Hbad. rewrite months_from_length in Hbad. lia. }
  apply (scan_stops client today k _ _ _ _ _ bad e); try done; lia.
Qed.

(** The service fails for December 2023 and has data for November. *)
Definition december_down : YazioClient :=
  {| base_url := BASE_URL;
     api_version := API_VERSION;
     session_get := fun url _ =>
       if str_contains "start=2023-12-01" url
       then Responded (Response 404 None)
       else Responded (Response 200 (Some (JArray [JObject [("date", JString "2023-11-15")]]))) |}.

Lemma auto_discover_months_stops_at_first_failure_witness :
  auto_discover_months december_down (Date 2024 2 15) 2023 11 =
    Some (Raise (APIError
                   (http_error_message 404
                      (get_url december_down (month_query (2023, 12))))
                   404 (get_url december_down (month_query (2023, 12)))),
          month_query <$> take 2 (months_between (Date 2024 2 15) 2023 11)).
Proof.
  apply (auto_discover_months_stops_at_first_failure
           december_down (Date 2024 2 15) 2023 11 1 (2023, 12)).
  - cbn. lia.
  - cbn. lia.
  - lia.
  - lia.
  - reflexivity.
  - intros j ym Hj Hym. assert (j = 0%nat) as -> by lia.
    injection Hym as <-. eexists. vm_compute. reflexivity.
  - vm_compute. reflexivity.
Defined.

Lemma make_tasks_length (dates data_types : list string) :
  length (make_tasks dates data_types) = (length dates * length data_types)%nat.
Proof.
  unfold make_tasks. induction dates as [|d dates IH]; [done|].
  rewrite bind_cons, length_app, IH. cbn [length Nat.mul]. f_equal.
  clear. induction data_types as [|k ks IH]; [done|].
  rewrite bind_cons. cbn. by rewrite IH.
Qed.

(** X7.  With known data types and a valid worker cap,
    [fetch_days_concurrent] submits one task for every pair of a date
    and a data type, date by date, [len(dates) * len(data_types)] in
    all; without dates or without data types it starts no pool. *)
Theorem fetch_days_concurrent_submits_cross_product
    client dates data_types max_workers order :
  0 < max_workers ->
  order ≡ₚ seq 0 (length (make_tasks dates data_types)) ->
  (forall dtype, dtype ∈ data_types -> known dtype) ->
  let trace := (fetch_days_concurrent client dates data_types max_workers order).2 in
  submitted trace = make_tasks dates data_types /\
  length (submitted trace) = (length dates * length data_types)%nat /\
  (dates = [] \/ data_types = [] -> trace = []).
Proof.
  intros Hw Hperm Hknown trace.
  destruct (fetch_days_concurrent_known client dates data_types max_workers order
              Hw Hperm Hknown) as (results & Hrun & _).
  unfold trace. rewrite Hrun. cbn [snd].
  rewrite UtilsSpec.submitted_pool_trace. split; [done|].
  pose proof (make_tasks_length dates data_types) as Hlen.
  split; [done|]. intros Hempty.
  assert (make_tasks dates data_types = []) as ->; [|done].
  apply length_zero_iff_nil. rewrite Hlen. destruct Hempty as [-> | ->]; cbn; lia.
Qed.

Lemma fetch_days_concurrent_submits_cross_product_witness :
  let trace :=
    (fetch_days_concurrent second_fails ["2024-01-01"; "2024-01-02"]
                           ["consumed"; "goals"] 10 [1; 0; 2; 3]%nat).2 in
  submitted trace = make_tasks ["2024-01-01"; "2024-01-02"] ["consumed"; "goals"] /\
  length (submitted trace) = (2 * 2)%nat /\
  (["2024-01-01"; "2024-01-02"] = [] \/ ["consumed"; "goals"] = [] -> trace = []).
Proof.
  apply (fetch_days_concurrent_submits_cross_product
           second_fails ["2024-01-01"; "2024-01-02"] ["consumed"; "goals"]
           10 [1; 0; 2; 3]%nat).
  - reflexivity.
  - apply perm_swap.
  - intros dtype Hin.
    repeat (apply elem_of_cons in Hin as [->|Hin]);
      [by eexists ..|by apply elem_of_nil in Hin].
Defined.

End ExportDaysMore.


(** ** export_nutrients.py: one nutrient, and the whole profile *)

Module ExportNutrientsMore.
Import Constants Client Utils ExportNutrients NutrientProfile.

(** X8.  [fetch_nutrient] raises exactly when [client.get] raises, and
    then the same exception: a body that is not JSON, or JSON that is
    no object, gives the empty dict instead of an error. *)
Theorem fetch_nutrient_raises_only_with_get client nutrient_id start end_ e :
  fetch_nutrient client nutrient_id start end_ = Raise e <->
  (get client (nutrient_endpoint nutrient_id start end_) MAX_RETRIES).1 = Raise e.
Proof.
  unfold fetch_nutrient.
  destruct (get client (nutrient_endpoint nutrient_id start end_) MAX_RETRIES).1
    as [[[status [data|]]|]|e']; cbn;
    try destruct data; split; intros [=]; by subst.
Qed.

(** X9.  From a response whose body is a JSON object, [fetch_nutrient]
    returns the items of the object whose value is not null, in the
    order of the object: no null is returned and nothing else is
    dropped. *)
Theorem fetch_nutrient_drops_nulls client nutrient_id start end_ r items :
  (get client (nutrient_endpoint nutrient_id start end_) MAX_RETRIES).1 = Ret (Some r) ->
  body r = Some (JObject items) ->
  exists values,
    fetch_nutrient client nutrient_id start end_ = Ret values /\
    (forall kv, kv ∈ values <-> kv ∈ items /\ kv.2 <> JNull) /\
    values `sublist_of` items.
Proof.
  intros Hget Hbody. unfold fetch_nutrient. rewrite Hget. cbn.
  unfold json_of. rewrite Hbody. eexists. split; [done|]. split.
  - intros kv. rewrite !list_elem_of_In, filter_In.
    destruct kv as [k []]; cbn; intuition congruence.
  - clear. induction items as [|kv items IH]; cbn; [done|].
    destruct (negb (is_none kv.2)); by constructor.
Qed.

Lemma fetch_nutrient_drops_nulls_witness :
  exists values,
    fetch_nutrient ExportNutrientsSpec.patchy "vitamin.d" "2024-01-01" "2024-01-31"
      = Ret values /\
    (forall kv, kv ∈ values <->
                kv ∈ [("2024-01-15", JNumber "12.5"); ("2024-01-16", JNull)] /\
                kv.2 <> JNull) /\
    values `sublist_of` [("2024-01-15", JNumber "12.5"); ("2024-01-16", JNull)].
Proof.
  apply (fetch_nutrient_drops_nulls ExportNutrientsSpec.patchy "vitamin.d"
           "2024-01-01" "2024-01-31"
           (Response 200 (Some (JObject [("2024-01-15", JNumber "12.5");
                                         ("2024-01-16", JNull)])))).
  - reflexivity.
  - reflexivity.
Defined.

Lemma all_nutrients_distinct : NoDup (ALL_VITAMINS ++ ALL_MINERALS).
Proof. apply (bool_decide_unpack _). vm_compute. reflexivity. Qed.

(** X10.  With a valid worker cap, [fetch_all] returns a map with
    exactly the 26 vitamins and minerals as keys, whatever the service
    does. *)
Theorem fetch_all_has_every_nutrient client start end_ max_workers order :
  0 < max_workers ->
  order ≡ₚ seq 0 26 ->
  exists results,
    fetch_all client start end_ max_workers order = Ret results /\
    dom results = list_to_set (ALL_VITAMINS ++ ALL_MINERALS) /\
    size results = 26%nat.
Proof.
  intros Hw Hperm. unfold fetch_all.
  destruct (ExportNutrientsSpec.fetch_multiple_lookup
              client (ALL_VITAMINS ++ ALL_MINERALS) start end_ max_workers order
              Hw Hperm) as (results & Hrun & Hlookup).
  exists results. split; [done|].
  assert (dom results = list_to_set (ALL_VITAMINS ++ ALL_MINERALS)) as Hdom.
  { apply set_eq. intros n.
    rewrite elem_of_dom, elem_of_list_to_set, Hlookup.
    destruct (decide (n ∈ ALL_VITAMINS ++ ALL_MINERALS)) as [Hin|Hin].
    - split; [done|]. intros _. by destruct (fetch_nutrient client n start end_).
    - split; [by intros ?%is_Some_None|done]. }
  split; [done|].
  rewrite <- (size_dom results), Hdom.
  rewrite size_list_to_set by apply all_nutrients_distinct. done.
Qed.

Lemma fetch_all_has_every_nutrient_witness :
  exists results,
    fetch_all ExportNutrientsSpec.patchy "2024-01-01" "2024-01-31"
              NUTRIENT_WORKERS (seq 0 26) = Ret results /\
    dom results = list_to_set (ALL_VITAMINS ++ ALL_MINERALS) /\
    size results = 26%nat.
Proof.
  apply (fetch_all_has_every_nutrient ExportNutrientsSpec.patchy
           "2024-01-01" "2024-01-31" NUTRIENT_WORKERS (seq 0 26)).
  - reflexivity.
  - reflexivity.
Defined.

End ExportNutrientsMore.


(** ** export_products.py: the batch of products and recipes *)

Module ExportProductsMore.
Import Constants Client Utils ExportProducts.

(** What one id is bound to. *)
Definition bound (fetch : string -> res json) (id : string) : entry :=
  match fetch id with
  | Ret data => Document data
  | Raise e => Failure e
  end.

Lemma merge_items_lookup (items : list (string * exn)) :
  forall (merged : gmap string entry) (k : string),
    NoDup items.*1 ->
    foldl (fun merged item => <[item.1 := Failure item.2]> merged) merged items !! k =
      match (list_to_map items : gmap string exn) !! k with
      | Some e => Some (Failure e)
      | None => merged !! k
      end.
Proof.
  induction items as [|[k0 e0] items IH]; intros merged k Hnodup; [done|].
  apply NoDup_cons in Hnodup as [Hfresh Hnodup].
  cbn [foldl]. rewrite IH by done. cbn [fst snd].
  change (list_to_map ((k0, e0) :: items) : gmap string exn)
    with (<[k0 := e0]> (list_to_map items : gmap string exn)).
  destruct (decide (k0 = k)) as [->|Hne].
  - rewrite !lookup_insert_eq.
    by rewrite (not_elem_of_list_to_map_1 items) by done.
  - by rewrite !lookup_insert_ne by done.
Qed.

Lemma merge_binds (successes : gmap string json) (errors : gmap string exn) k :
  merge successes errors !! k =
    match errors !! k with
    | Some e => Some (Failure e)
    | None => Document <$> successes !! k
    end.
Proof.
  unfold merge. rewrite merge_items_lookup by apply NoDup_fst_map_to_list.
  by rewrite list_to_map_to_list, lookup_fmap.
Qed.

(** One batch and its merge. *)
Lemma merged_batch (fetch : string -> res json) (ids : gset string)
    (max_workers : Z) (order : list nat) :
  0 < max_workers ->
  order ≡ₚ seq 0 (size ids) ->
  exists successes errors,
    fetch_concurrent (elements ids) (as_task fetch) max_workers order =
      (Ret (successes, errors), UtilsSpec.pool_trace (elements ids) max_workers) /\
    forall id,
      merge successes errors !! id =
        if decide (id ∈ ids) then Some (bound fetch id) else None.
Proof.
  intros Hw Hperm.
  destruct (UtilsSpec.fetch_concurrent_returns
              (elements ids) (as_task fetch) max_workers order Hw Hperm)
    as (successes & errors & Hrun & Hres & Herr).
  exists successes, errors. split; [done|]. intros id.
  rewrite merge_binds, Hres, Herr. unfold as_task, bound.
  destruct (decide (id ∈ elements ids)) as [Hin|Hin];
    destruct (decide (id ∈ ids)) as [Hin'|Hin'];
    try (exfalso; rewrite elem_of_elements in Hin; tauto);
    by destruct (fetch id).
Qed.

(** X11.  With a valid worker cap, [fetch_all_concurrent] returns two
    maps whose keys are exactly the requested product ids and recipe
    ids; each id is bound to the document its fetch returned or, when
    the fetch raised, to the exception object itself. *)
Theorem fetch_all_concurrent_binds_every_id
    client product_ids recipe_ids max_workers product_order recipe_order :
  0 < max_workers ->
  product_order ≡ₚ seq 0 (size product_ids) ->
  recipe_order ≡ₚ seq 0 (size recipe_ids) ->
  exists result trace,
    fetch_all_concurrent client product_ids recipe_ids max_workers
                         product_order recipe_order = (Ret result, trace) /\
    dom (products result) = product_ids /\
    dom (recipes result) = recipe_ids /\
    (forall id, id ∈ product_ids ->
       products result !! id =
         Some (match fetch_product client id with
               | Ret data => Document data
               | Raise e => Failure e
               end)) /\
    (forall id, id ∈ recipe_ids ->
       recipes result !! id =
         Some (match fetch_recipe client id with
               | Ret data => Document data
               | Raise e => Failure e
               end)).
Proof.
  intros Hw Hp Hr. unfold fetch_all_concurrent.
  destruct (merged_batch (fetch_product client) product_ids max_workers product_order
              Hw Hp) as (ps & pe & -> & Hproducts).
  destruct (merged_batch (fetch_recipe client) recipe_ids max_workers recipe_order
              Hw Hr) as (rs & re & -> & Hrecipes).
  do 2 eexists. split; [done|]. cbn [products recipes].
  split; [|split; [|split]].
  - apply set_eq. intros id. rewrite elem_of_dom, Hproducts.
    case_decide; [by split; eauto|]. split; [by intros ?%is_Some_None|done].
  - apply set_eq. intros id. rewrite elem_of_dom, Hrecipes.
    case_decide; [by split; eauto|]. split; [by intros ?%is_Some_None|done].
  - intros id Hid. by rewrite Hproducts, decide_True by done.
  - intros id Hid. by rewrite Hrecipes, decide_True by done.
Qed.

(** X12.  What step 5 of the complete export writes out of a batch:
    exactly the ids whose fetch returned, each with its document; an id
    whose fetch raised is left out. *)
Theorem clean_keeps_the_fetched_documents
    client product_ids recipe_ids max_workers product_order recipe_order :
  0 < max_workers ->
  product_order ≡ₚ seq 0 (size product_ids) ->
  recipe_order ≡ₚ seq 0 (size recipe_ids) ->
  exists result trace,
    fetch_all_concurrent client product_ids recipe_ids max_workers
                         product_order recipe_order = (Ret result, trace) /\
    (forall id,
       clean (products result) !! id =
         if decide (id ∈ product_ids)
         then match fetch_product client id with
              | Ret data => Some data
              | Raise _ => None
              end
         else None) /\
    (forall id,
       clean (recipes result) !! id =
         if decide (id ∈ recipe_ids)
         then match fetch_recipe client id with
              | Ret data => Some data
              | Raise _ => None
              end
         else None).
Proof.
  intros Hw Hp Hr. unfold fetch_all_concurrent.
  destruct (merged_batch (fetch_product client) product_ids max_workers product_order
              Hw Hp) as (ps & pe & -> & Hproducts).
  destruct (merged_batch (fetch_recipe client) recipe_ids max_workers recipe_order
              Hw Hr) as (rs & re & -> & Hrecipes).
  do 2 eexists. split; [done|]. cbn [products recipes]. unfold clean.
  split; intros id; rewrite lookup_omap.
  - rewrite Hproducts. unfold bound. case_decide; [|done].
    by destruct (fetch_product client id).
  - rewrite Hrecipes. unfold bound. case_decide; [|done].
    by destruct (fetch_recipe client id).
Qed.

(** The service knows the product [p1] and nothing else. *)
Definition one_product : YazioClient :=
  {| base_url := BASE_URL;
     api_version := API_VERSION;
     session_get := fun url _ =>
       if str_contains "/products/p1" url
       then Responded (Response 200 (Some (JObject [("name", JString "Oats")])))
       else Responded (Response 404 None) |}.

Example fetch_all_concurrent_one_product :
  (fetch_all_concurrent one_product {["p1"; "p2"]} {["r1"]} DEFAULT_WORKERS
                        [1; 0]%nat [0]%nat).1 =
    Ret {| products :=
             <["p1" := Document (JObject [("name", JString "Oats")])]>
             {["p2" := Failure
                         (APIError
                            "HTTP 404 error for URL: https://yzapi.yazio.com/v15/products/p2"
                            404 "https://yzapi.yazio.com/v15/products/p2")]};
           recipes :=
             {["r1" := Failure
                         (APIError
                            "HTTP 404 error for URL: https://yzapi.yazio.com/v15/recipes/r1"
                            404 "https://yzapi.yazio.com/v15/recipes/r1")]} |}.
Proof. vm_compute. reflexivity. Qed.

Lemma fetch_all_concurrent_binds_every_id_witness :
  exists result trace,
    fetch_all_concurrent one_product {["p1"; "p2"]} {["r1"]} 10 [1; 0]%nat [0]%nat
      = (Ret result, trace) /\
    dom (products result) = {["p1"; "p2"]} /\
    dom (recipes result) = {["r1"]} /\
    (forall id, id ∈ ({["p1"; "p2"]} : gset string) ->
       products result !! id =
         Some (match fetch_product one_product id with
               | Ret data => Document data
               | Raise e => Failure e
               end)) /\
    (forall id, id ∈ ({["r1"]} : gset string) ->
       recipes result !! id =
         Some (match fetch_recipe one_product id with
               | Ret data => Document data
               | Raise e => Failure e
               end)).
Proof.
  apply (fetch_all_concurrent_binds_every_id one_product {["p1"; "p2"]} {["r1"]}
           10 [1; 0]%nat [0]%nat).
  - reflexivity.
  - vm_compute. apply perm_swap.
  - vm_compute. reflexivity.
Defined.

Lemma clean_keeps_the_fetched_documents_witness :
  exists result trace,
    fetch_all_concurrent one_product {["p1"; "p2"]} {["r1"]} 10 [1; 0]%nat [0]%nat
      = (Ret result, trace) /\
    (forall id,
       clean (products result) !! id =
         if decide (id ∈ ({["p1"; "p2"]} : gset string))
         then match fetch_product one_product id with
              | Ret data => Some data
              | Raise _ => None
              end
         else None) /\
    (forall id,
       clean (recipes result) !! id =
         if decide (id ∈ ({["r1"]} : gset string))
         then match fetch_recipe one_product id with
              | Ret data => Some data
              | Raise _ => None
              end
         else None).
Proof.
  apply (clean_keeps_the_fetched_documents one_product {["p1"; "p2"]} {["r1"]}
           10 [1; 0]%nat [0]%nat).
  - reflexivity.
  - vm_compute. apply perm_swap.
  - vm_compute. reflexivity.
Defined.

End ExportProductsMore.


(** ** utils.py: the date helpers *)

Module DateUtilsSpec.
Import ExportDays DateUtils.

(** A date of the calendar. *)
Definition valid_date (d : date) : Prop :=
  1 <= year d <= 9999 /\ 1 <= month d <= 12 /\
  1 <= day d <= monthrange_days (year d) (month d).

Lemma new_date_valid (y m d : Z) (x : date) :
  new_date y m d = Ret x -> x = Date y m d /\ valid_date x.
Proof.
  unfold new_date, valid_date.
  destruct ((1 <=? y) && (y <=? 9999)) eqn:Hy; cbn; [|done].
  destruct ((1 <=? m) && (m <=? 12)) eqn:Hm; cbn; [|done].
  destruct ((1 <=? d) && (d <=? monthrange_days y m)) eqn:Hd; cbn; [|done].
  intros [= <-]. cbn. split; [done|]. lia.
Qed.

Lemma new_date_of_valid (x : date) :
  valid_date x -> new_date (year x) (month x) (day x) = Ret x.
Proof.
  intros (Hy & Hm & Hd). unfold new_date.
  assert ((1 <=? year x) && (year x <=? 9999) = true) as -> by lia.
  assert ((1 <=? month x) && (month x <=? 12) = true) as -> by lia.
  assert ((1 <=? day x) && (day x <=? monthrange_days (year x) (month x)) = true)
    as -> by lia.
  by destruct x.
Qed.

Lemma strptime_ymd_valid (s : string) (x : date) :
  strptime_ymd s = Ret x -> valid_date x.
Proof.
  unfold strptime_ymd. repeat case_match; try done.
  intros Hnew. by apply new_date_valid in Hnew as [_ ?].
Qed.

(** *** Formatting, then parsing *)

Lemma append_cons (c : ascii) (s t : string) : String c s +:+ t = String c (s +:+ t).
Proof. reflexivity. Qed.

Lemma append_nil (t : string) : "" +:+ t = t.
Proof. reflexivity. Qed.

Lemma digit_value_digit (n : Z) : digit_value (digit n) = Some (n mod 10).
Proof.
  unfold digit. pose proof (Z.mod_pos_bound n 10 eq_refl) as Hb.
  remember (n mod 10) as k eqn:Hk. clear Hk.
  assert (k = 0 \/ k = 1 \/ k = 2 \/ k = 3 \/ k = 4 \/ k = 5 \/ k = 6 \/
          k = 7 \/ k = 8 \/ k = 9) as Hcases by lia.
  repeat (destruct Hcases as [->|Hcases]); try subst k; reflexivity.
Qed.

Lemma match_year_padded (y : Z) (rest : string) :
  0 <= y <= 9999 ->
  match_year (zero_padded 4 y +:+ rest) = Some (y, rest).
Proof.
  intros Hy. cbn [zero_padded].
  repeat first [rewrite append_nil|rewrite append_cons].
  unfold match_year. rewrite !digit_value_digit. do 2 f_equal.
  Z.div_mod_to_equations. lia.
Qed.

(** Month and day, for each of the twelve times thirty-one pairs. *)
Definition month_day_round_trip (m d : Z) : bool :=
  bool_decide
    (match_month_day (match_month (zero_padded 2 m +:+ "-" +:+ zero_padded 2 d))
     = Some (m, d, "")).

Lemma month_day_round_trips :
  forallb (fun m => forallb (month_day_round_trip m) (seqZ 1 31)) (seqZ 1 12) = true.
Proof. vm_compute. reflexivity. Qed.

Lemma match_month_day_padded (m d : Z) :
  1 <= m <= 12 -> 1 <= d <= 31 ->
  match_month_day (match_month (zero_padded 2 m +:+ "-" +:+ zero_padded 2 d))
  = Some (m, d, "").
Proof.
  intros Hm Hd. pose proof month_day_round_trips as Hall.
  rewrite forallb_forall in Hall.
  specialize (Hall m). rewrite forallb_forall in Hall.
  assert (month_day_round_trip m d = true) as Hmd.
  { apply Hall; apply list_elem_of_In, elem_of_seqZ; lia. }
  by apply bool_decide_eq_true in Hmd.
Qed.

Lemma strptime_strftime (x : date) :
  valid_date x -> strptime_ymd (strftime_ymd x) = Ret x.
Proof.
  intros Hx. pose proof Hx as (Hy & Hm & Hd).
  pose proof (ExportDaysSpec.monthrange_days_bounds (year x) (month x) Hm) as Hdays.
  unfold strptime_ymd, strftime_ymd.
  rewrite match_year_padded by lia. cbn [match_dash append].
  change ("-" +:+ ?s) with (String "-" s). cbn [match_dash].
  rewrite match_month_day_padded by lia.
  by apply new_date_of_valid.
Qed.

(** *** The order of dates and the next day *)

Lemma valid_date_bounds (d : date) :
  valid_date d -> 1 <= month d <= 12 /\ 1 <= day d <= 31.
Proof.
  intros (Hy & Hm & Hd).
  pose proof (ExportDaysSpec.monthrange_days_bounds (year d) (month d) Hm). lia.
Qed.

Lemma date_le_index (a b : date) :
  valid_date a -> valid_date b ->
  date_le a b = true <-> day_index a <= day_index b.
Proof.
  intros [Hma Hda]%valid_date_bounds [Hmb Hdb]%valid_date_bounds.
  unfold date_le, day_index. lia.
Qed.

Lemma day_index_inj (a b : date) :
  valid_date a -> valid_date b -> day_index a = day_index b -> a = b.
Proof.
  intros [Hma Hda]%valid_date_bounds [Hmb Hdb]%valid_date_bounds.
  destruct a as [ya ma da], b as [yb mb db]. unfold day_index. cbn in *.
  intros Heq. f_equal; lia.
Qed.

Lemma next_day_spec (d d' : date) :
  valid_date d ->
  next_day d = Some d' ->
  valid_date d' /\
  day_index d < day_index d' /\
  forall x, valid_date x -> day_index d < day_index x -> day_index d' <= day_index x.
Proof.
  intros Hd. pose proof Hd as (Hy & Hm & Hday).
  pose proof (valid_date_bounds d Hd) as [_ Hday31].
  unfold next_day.
  destruct (day d <? monthrange_days (year d) (month d)) eqn:Hlast;
    [|destruct (month d <? 12) eqn:Hdec; [|destruct (year d <? 9999) eqn:Hmax]];
    intros [= <-]; unfold valid_date, day_index; cbn [year month day].
  - split; [lia|]. split; [lia|]. intros x _ Hx. lia.
  - pose proof (ExportDaysSpec.monthrange_days_bounds (year d) (month d + 1)).
    split; [lia|]. split; [lia|]. intros x Hx Hlt.
    pose proof (valid_date_bounds x Hx) as [Hxm Hxd]. destruct Hx as (_ & _ & Hxday).
    assert (year x = year d \/ year d < year x) as [Hsame|?] by lia; [|lia].
    assert (month x = month d \/ month d < month x) as [Hm'|?] by lia; [|lia].
    rewrite Hsame, Hm' in Hxday. lia.
  - pose proof (ExportDaysSpec.monthrange_days_bounds (year d + 1) 1).
    split; [lia|]. split; [lia|]. intros x Hx Hlt.
    pose proof (valid_date_bounds x Hx) as [Hxm Hxd]. destruct Hx as (_ & _ & Hxday).
    assert (year x = year d \/ year d < year x) as [Hsame|?] by lia; [|lia].
    assert (month x = month d) as Hm' by lia.
    rewrite Hsame, Hm' in Hxday. lia.
Qed.

Lemma next_day_is_some (d : date) :
  year d < 9999 -> is_Some (next_day d).
Proof.
  intros Hy. unfold next_day. repeat case_match; try by eexists. lia.
Qed.

(** What the loop yields: the dates from [current] to [end_date]. *)
Lemma days_loop_spec (end_date : date) (n : nat) :
  valid_date end_date -> year end_date < 9999 ->
  forall fuel current,
    valid_date current ->
    day_index end_date - day_index current + 1 <= Z.of_nat n ->
    (n < fuel)%nat ->
    exists days,
      days_loop fuel current end_date = Some (strftime_ymd <$> days, Exhausted) /\
      (forall x, x ∈ days <->
                 valid_date x /\ day_index current <= day_index x <= day_index end_date) /\
      StronglySorted (fun a b => date_le b a = false) days.
Proof.
  intros He Hmax. induction n as [|n IH]; intros fuel current Hc Hn Hfuel;
    (destruct fuel as [|fuel]; [lia|]); cbn [days_loop];
    destruct (date_le current end_date) eqn:Hle.
  - apply date_le_index in Hle; [lia|done|done].
  - exists []. split; [done|]. split; [|constructor].
    intros x. rewrite elem_of_nil. split; [done|]. intros [Hx Hi].
    apply not_true_iff_false in Hle. rewrite date_le_index in Hle by done. lia.
  - apply date_le_index in Hle; [|done|done].
    destruct (next_day_is_some current) as [next Hnext].
    { pose proof (valid_date_bounds current Hc) as [? ?].
      pose proof (valid_date_bounds end_date He) as [? ?].
      unfold day_index in Hle. lia. }
    rewrite Hnext.
    destruct (next_day_spec current next Hc Hnext) as (Hnv & Hlt & Hgap).
    destruct (IH fuel next) as (days & -> & Helem & Hsorted); [done|lia|lia|].
    exists (current :: days). split; [done|]. split.
    + intros x. rewrite elem_of_cons, Helem. split.
      * intros [->|[Hx Hi]]; [split; [done|lia]|split; [done|lia]].
      * intros [Hx Hi].
        destruct (decide (day_index x = day_index current)) as [Heq|Hne].
        -- left. by apply day_index_inj.
        -- right. split; [done|]. split; [apply Hgap; [done|lia]|lia].
    + constructor; [done|]. apply Forall_forall. intros x [Hx Hi]%Helem.
      apply not_true_iff_false. rewrite date_le_index by done. lia.
  - exists []. split; [done|]. split; [|constructor].
    intros x. rewrite elem_of_nil. split; [done|]. intros [Hx Hi].
    apply not_true_iff_false in Hle. rewrite date_le_index in Hle by done. lia.
Qed.

(** Closes the goal that a given date is one of the calendar. *)
Local Ltac calendar := unfold valid_date; repeat split; vm_compute; discriminate.

(** X13.  A date of the calendar written as [%Y-%m-%d] (four-digit
    year) is parsed back to itself, so [validate_date] accepts the
    string and hands it back unchanged. *)
Theorem validate_date_accepts_formatted_dates (x : date) :
  valid_date x ->
  1000 <= year x ->
  strptime_ymd (strftime_ymd x) = Ret x /\
  validate_date (strftime_ymd x) = Ret (strftime_ymd x).
Proof.
  intros Hx _. pose proof (strptime_strftime x Hx) as Hparse.
  split; [done|]. unfold validate_date. by rewrite Hparse.
Qed.

Lemma validate_date_accepts_formatted_dates_witness :
  strptime_ymd (strftime_ymd (Date 2024 2 29)) = Ret (Date 2024 2 29) /\
  validate_date (strftime_ymd (Date 2024 2 29)) = Ret (strftime_ymd (Date 2024 2 29)).
Proof.
  apply (validate_date_accepts_formatted_dates (Date 2024 2 29)).
  - calendar.
  - cbn. lia.
Defined.

(** Strings that are no dates of the calendar. *)
Example validate_date_rejects :
  validate_date "2023-02-29" =
    Raise (ValueError "Invalid date format: '2023-02-29'. Expected YYYY-MM-DD (e.g., 2024-01-15)") /\
  validate_date "2024-13-01" =
    Raise (ValueError "Invalid date format: '2024-13-01'. Expected YYYY-MM-DD (e.g., 2024-01-15)") /\
  validate_date "2024-01-15T10:00" =
    Raise (ValueError "Invalid date format: '2024-01-15T10:00'. Expected YYYY-MM-DD (e.g., 2024-01-15)") /\
  validate_date "24-01-15" =
    Raise (ValueError "Invalid date format: '24-01-15'. Expected YYYY-MM-DD (e.g., 2024-01-15)") /\
  validate_date "2024-1-5" = Ret "2024-1-5".
Proof. repeat split; reflexivity. Qed.

(** X14.  For two formatted dates of the calendar,
    [validate_date_range] returns when the first is not after the
    second, and raises [ValueError] when it is. *)
Theorem validate_date_range_compares_dates (a b : date) :
  valid_date a -> valid_date b ->
  1000 <= year a -> 1000 <= year b ->
  (day_index a <= day_index b ->
   validate_date_range (strftime_ymd a) (strftime_ymd b) = Ret tt) /\
  (day_index b < day_index a ->
   exists message,
     validate_date_range (strftime_ymd a) (strftime_ymd b) = Raise (ValueError message)).
Proof.
  intros Ha Hb _ _. unfold validate_date_range.
  rewrite !strptime_strftime by done. cbn [res_bind].
  pose proof (date_le_index a b Ha Hb) as Hle.
  split; intros Hcmp.
  - by rewrite (proj2 Hle Hcmp).
  - assert (date_le a b = false) as ->; [|by eexists].
    apply not_true_iff_false. rewrite Hle. lia.
Qed.

Lemma validate_date_range_compares_dates_witness :
  (day_index (Date 2024 3 1) <= day_index (Date 2024 2 29) ->
   validate_date_range (strftime_ymd (Date 2024 3 1)) (strftime_ymd (Date 2024 2 29))
   = Ret tt) /\
  (day_index (Date 2024 2 29) < day_index (Date 2024 3 1) ->
   exists message,
     validate_date_range (strftime_ymd (Date 2024 3 1)) (strftime_ymd (Date 2024 2 29))
     = Raise (ValueError message)).
Proof.
  apply (validate_date_range_compares_dates (Date 2024 3 1) (Date 2024 2 29)).
  - calendar.
  - calendar.
  - cbn. lia.
  - cbn. lia.
Defined.

(** X15.  When both strings parse, and the end is before the year
    9999, [date_range] ends normally and yields, formatted, exactly the
    dates of the calendar from the start to the end, both included, in
    increasing order; nothing when the start is after the end. *)
Theorem date_range_yields_every_day (start end_ : string) (s e : date) :
  strptime_ymd start = Ret s ->
  strptime_ymd end_ = Ret e ->
  year e < 9999 ->
  exists days,
    date_range start end_ = Some (strftime_ymd <$> days, Exhausted) /\
    (forall x, x ∈ days <->
               valid_date x /\ date_le s x = true /\ date_le x e = true) /\
    StronglySorted (fun a b => date_le b a = false) days /\
    (date_le s e = false -> days = []).
Proof.
  intros Hstart Hend Hmax. unfold date_range. rewrite Hstart, Hend.
  pose proof (strptime_ymd_valid _ _ Hstart) as Hs.
  pose proof (strptime_ymd_valid _ _ Hend) as He.
  destruct (days_loop_spec e (Z.to_nat (day_index e - day_index s + 1)) He Hmax
              (S (Z.to_nat (day_index e - day_index s + 1))) s Hs)
    as (days & Hloop & Helem & Hsorted); [lia|lia|].
  assert (forall x, x ∈ days <->
                    valid_date x /\ date_le s x = true /\ date_le x e = true) as Helem'.
  { intros x. rewrite Helem. split.
    - intros [Hx Hi]. rewrite !date_le_index by done. split; [done|lia].
    - intros (Hx & H1 & H2). rewrite !date_le_index in H1, H2 by done.
      split; [done|lia]. }
  exists days. split; [done|]. split; [done|]. split; [done|].
  intros Hlt. destruct days as [|x days]; [done|].
  assert (x ∈ x :: days) as (Hx & H1 & H2)%Helem' by (by left).
  apply not_true_iff_false in Hlt. destruct Hlt.
  rewrite !date_le_index in * by done. lia.
Qed.

Lemma date_range_yields_every_day_witness :
  exists days,
    date_range "2024-02-28" "2024-03-01" = Some (strftime_ymd <$> days, Exhausted) /\
    (forall x, x ∈ days <->
               valid_date x /\ date_le (Date 2024 2 28) x = true /\
               date_le x (Date 2024 3 1) = true) /\
    StronglySorted (fun a b => date_le b a = false) days /\
    (date_le (Date 2024 2 28) (Date 2024 3 1) = false -> days = []).
Proof.
  apply (date_range_yields_every_day "2024-02-28" "2024-03-01"
           (Date 2024 2 28) (Date 2024 3 1)).
  - reflexivity.
  - reflexivity.
  - cbn. lia.
Defined.

Example date_range_over_leap_day :
  date_range "2024-02-28" "2024-03-01" =
    Some (["2024-02-28"; "2024-02-29"; "2024-03-01"], Exhausted).
Proof. vm_compute. reflexivity. Qed.

(** X16.  Every string [date_range] yields, for a start from the year
    1000 on, passes [validate_date]. *)
Theorem date_range_yields_valid_strings (start end_ : string) (s e : date) :
  strptime_ymd start = Ret s ->
  strptime_ymd end_ = Ret e ->
  1000 <= year s ->
  year e < 9999 ->
  exists dates,
    date_range start end_ = Some (dates, Exhausted) /\
    Forall (fun d => validate_date d = Ret d) dates.
Proof.
  intros Hstart Hend Hmin Hmax. unfold date_range. rewrite Hstart, Hend.
  pose proof (strptime_ymd_valid _ _ Hstart) as Hs.
  pose proof (strptime_ymd_valid _ _ Hend) as He.
  destruct (days_loop_spec e (Z.to_nat (day_index e - day_index s + 1)) He Hmax
              (S (Z.to_nat (day_index e - day_index s + 1))) s Hs)
    as (days & Hloop & Helem & _); [lia|lia|].
  eexists. split; [done|]. apply Forall_fmap, Forall_forall.
  intros x [Hx _]%Helem. cbn. unfold validate_date.
  by rewrite strptime_strftime.
Qed.

Lemma date_range_yields_valid_strings_witness :
  exists dates,
    date_range "2024-02-28" "2024-03-01" = Some (dates, Exhausted) /\
    Forall (fun d => validate_date d = Ret d) dates.
Proof.
  apply (date_range_yields_valid_strings "2024-02-28" "2024-03-01"
           (Date 2024 2 28) (Date 2024 3 1)).
  - reflexivity.
  - reflexivity.
  - cbn. lia.
  - cbn. lia.
Defined.

(** Where the loop starts and where it stops. *)
Lemma days_loop_ends (end_date : date) (n : nat) :
  valid_date end_date -> year end_date < 9999 ->
  forall fuel current,
    valid_date current ->
    day_index current <= day_index end_date ->
    day_index end_date - day_index current + 1 <= Z.of_nat n ->
    (n < fuel)%nat ->
    exists later,
      days_loop fuel current end_date =
        Some (strftime_ymd current :: later, Exhausted) /\
      last (strftime_ymd current :: later) = Some (strftime_ymd end_date).
Proof.
  intros He Hmax. induction n as [|n IH]; intros fuel current Hc Hle Hn Hfuel;
    [lia|]. destruct fuel as [|fuel]; [lia|]. cbn [days_loop].
  rewrite (proj2 (date_le_index current end_date Hc He) Hle).
  destruct (next_day_is_some current) as [next Hnext].
  { pose proof (valid_date_bounds current Hc) as [? ?].
    pose proof (valid_date_bounds end_date He) as [? ?].
    unfold day_index in Hle. lia. }
  rewrite Hnext.
  destruct (next_day_spec current next Hc Hnext) as (Hnv & Hlt & Hgap).
  destruct (Z.le_gt_cases (day_index next) (day_index end_date)) as [Hmore|Hdone].
  - destruct (IH fuel next) as (later & -> & Hlast); [done|done|lia|lia|].
    eexists. split; [done|]. by rewrite last_cons, Hlast.
  - assert (current = end_date) as ->.
    { apply day_index_inj; [done|done|].
      destruct (Z.eq_dec (day_index current) (day_index end_date)) as [|Hne]; [done|].
      specialize (Hgap end_date He). lia. }
    destruct fuel as [|fuel]; [lia|]. cbn [days_loop].
    assert (date_le next end_date = false) as ->.
    { apply not_true_iff_false. rewrite date_le_index by done. lia. }
    eexists. split; [done|]. done.
Qed.

(** X20.  For a start that is not after the end (and an end before the
    year 9999), [date_range] yields at least one date: the first is the
    start and the last is the end, each as [%Y-%m-%d] writes the parsed
    date. *)
Theorem date_range_runs_from_start_to_end (start end_ : string) (s e : date) :
  strptime_ymd start = Ret s ->
  strptime_ymd end_ = Ret e ->
  validate_date_range start end_ = Ret tt ->
  year e < 9999 ->
  exists later,
    date_range start end_ = Some (strftime_ymd s :: later, Exhausted) /\
    last (strftime_ymd s :: later) = Some (strftime_ymd e).
Proof.
  intros Hstart Hend Hrange Hmax.
  pose proof (strptime_ymd_valid _ _ Hstart) as Hs.
  pose proof (strptime_ymd_valid _ _ Hend) as He.
  unfold validate_date_range in Hrange. rewrite Hstart, Hend in Hrange.
  cbn [res_bind] in Hrange.
  destruct (date_le s e) eqn:Hle; [|done].
  apply date_le_index in Hle; [|done|done].
  unfold date_range. rewrite Hstart, Hend.
  apply (days_loop_ends e (Z.to_nat (day_index e - day_index s + 1))); try done; lia.
Qed.

Lemma date_range_runs_from_start_to_end_witness :
  exists later,
    date_range "2024-2-28" "2024-03-01" =
      Some (strftime_ymd (Date 2024 2 28) :: later, Exhausted) /\
    last (strftime_ymd (Date 2024 2 28) :: later) = Some (strftime_ymd (Date 2024 3 1)).
Proof.
  apply (date_range_runs_from_start_to_end "2024-2-28" "2024-03-01"
           (Date 2024 2 28) (Date 2024 3 1)).
  - reflexivity.
  - reflexivity.
  - reflexivity.
  - cbn. lia.
Defined.

End DateUtilsSpec.


(** ** export_body.py: weights and body measurements *)

Module ExportBodySpec.
Import Constants Client Utils ExportDays DateUtils ExportBody.

(** X17.  Over a range whose dates [date_range] yields,
    [fetch_weight_range] returns the weights of exactly those dates for
    which [fetch_weight] returned a number: a date without a
    measurement and a date whose fetch raised are both left out, and
    the call itself does not raise.  Without dates no pool is started. *)
Theorem fetch_weight_range_keeps_measured_dates
    {F : Type} (float : json -> res F) client start end_ dates max_workers order :
  date_range start end_ = Some (dates, Exhausted) ->
  0 < max_workers ->
  order ≡ₚ seq 0 (length dates) ->
  exists by_date trace,
    fetch_weight_range float client start end_ max_workers order =
      Some (Weights by_date, trace) /\
    (forall d,
       by_date !! d =
         if decide (d ∈ dates)
         then match fetch_weight float client d with
              | Ret (Some weight) => Some weight
              | Ret None | Raise _ => None
              end
         else None) /\
    (dates = [] -> trace = []).
Proof.
  unfold date_range, fetch_weight_range. intros Hdates Hw Hperm.
  destruct (strptime_ymd start) as [s|]; [|done].
  destruct (strptime_ymd end_) as [e|]; [|done].
  rewrite Hdates. destruct dates as [|d0 dates].
  - do 2 eexists. split; [done|]. split; [|done].
    intros d. rewrite lookup_empty. by rewrite decide_False by apply not_elem_of_nil.
  - destruct (UtilsSpec.fetch_concurrent_returns
                (d0 :: dates) (weight_task float client) max_workers order Hw Hperm)
      as (results & errors & -> & Hres & _).
    do 2 eexists. split; [done|]. split; [|done].
    intros d. rewrite lookup_omap, Hres. unfold weight_task.
    destruct (fetch_weight float client d) as [[weight|]|err];
      by case_decide.
Qed.

(** The service has a weight for the first of March only, and fails on
    the second. *)
Definition one_weight : YazioClient :=
  {| base_url := BASE_URL;
     api_version := API_VERSION;
     session_get := fun url _ =>
       if str_contains "date=2024-03-01" url
       then Responded (Response 200 (Some (JObject [("date", JString "2024-03-01");
                                                    ("value", JNumber "72.5")])))
       else if str_contains "date=2024-03-02" url
       then Responded (Response 500 None)
       else Responded (Response 200 (Some (JObject [("value", JNull)]))) |}.

(** A stand-in for [float]: the literal of a number. *)
Definition literal (value : json) : res string :=
  match value with
  | JNumber l => Ret l
  | _ => Raise (TypeError "float() argument must be a string or a real number")
  end.

Example fetch_weight_range_one_weight :
  fst <$> fetch_weight_range literal one_weight "2024-03-01" "2024-03-03"
                             DEFAULT_WORKERS [2; 1; 0]%nat
  = Some (Weights {["2024-03-01" := "72.5"]}).
Proof. vm_compute. reflexivity. Qed.

Lemma fetch_weight_range_keeps_measured_dates_witness :
  exists by_date trace,
    fetch_weight_range literal one_weight "2024-03-01" "2024-03-03" 10 [2; 1; 0]%nat =
      Some (Weights by_date, trace) /\
    (forall d,
       by_date !! d =
         if decide (d ∈ ["2024-03-01"; "2024-03-02"; "2024-03-03"])
         then match fetch_weight literal one_weight d with
              | Ret (Some weight) => Some weight
              | Ret None | Raise _ => None
              end
         else None) /\
    (["2024-03-01"; "2024-03-02"; "2024-03-03"] = [] -> trace = []).
Proof.
  apply (fetch_weight_range_keeps_measured_dates literal one_weight
           "2024-03-01" "2024-03-03" ["2024-03-01"; "2024-03-02"; "2024-03-03"]
           10 [2; 1; 0]%nat).
  - vm_compute. reflexivity.
  - reflexivity.
  - cbn. apply (perm_trans (l' := [1; 2; 0]%nat)); [apply perm_swap|].
    apply (perm_trans (l' := [1; 0; 2]%nat)); [apply perm_skip, perm_swap|].
    apply perm_swap.
Defined.

(** *** probe_body_types *)

Definition probe_endpoint (date body_type : string) : string :=
  "/user/bodyvalues/" +:+ body_type +:+ "/last?date=" +:+ date.

(** The value the service reports for a body type: that of the key
    ["value"] of a JSON object, unless it is null. *)
Definition measured (client : YazioClient) (date body_type : string) : option json :=
  match (get client (probe_endpoint date body_type) MAX_RETRIES).1 with
  | Ret (Some r) =>
      match body r with
      | Some (JObject items) =>
          match dict_lookup "value" items with
          | Some JNull | None => None
          | Some value => Some value
          end
      | _ => None
      end
  | _ => None
  end.

(** A request that fails does so with an [APIError]. *)
Definition fails_with_api_error_only (client : YazioClient) (date body_type : string)
  : Prop :=
  forall e,
    (get client (probe_endpoint date body_type) MAX_RETRIES).1 = Raise e ->
    exists message status url, e = APIError message status url.

Lemma probe_goes_on client date body_type rest available :
  fails_with_api_error_only client date body_type ->
  probe client date (body_type :: rest) available =
    ((probe client date rest
        (match measured client date body_type with
         | Some value => <[body_type := value]> available
         | None => available
         end)).1,
     probe_endpoint date body_type ::
       (probe client date rest
          (match measured client date body_type with
           | Some value => <[body_type := value]> available
           | None => available
           end)).2).
Proof.
  intros Hapi. cbn [probe]. unfold measured, fails_with_api_error_only in *.
  fold (probe_endpoint date body_type).
  destruct (get client (probe_endpoint date body_type) MAX_RETRIES).1
    as [[[status [data|]]|]|e] eqn:Hget; cbn.
  - destruct data; try by destruct (probe client date rest available).
    destruct (dict_lookup "value" items) as [[]|];
      by destruct (probe client date rest _).
  - by destruct (probe client date rest available).
  - by destruct (probe client date rest available).
  - destruct (Hapi e eq_refl) as (m & s & u & ->).
    by destruct (probe client date rest available).
Qed.

Lemma probe_spec client date (types : list string) :
  forall available,
    (forall t, t ∈ types -> fails_with_api_error_only client date t) ->
    exists found,
      probe client date types available = (Ret found, probe_endpoint date <$> types) /\
      forall t,
        found !! t =
          if decide (t ∈ types)
          then match measured client date t with
               | Some value => Some value
               | None => available !! t
               end
          else available !! t.
Proof.
  induction types as [|t0 rest IH]; intros available Hapi.
  - exists available. split; [done|]. intros t.
    by rewrite decide_False by apply not_elem_of_nil.
  - rewrite probe_goes_on by (apply Hapi; by left).
    destruct (IH (match measured client date t0 with
                  | Some value => <[t0 := value]> available
                  | None => available
                  end)) as (found & Hrun & Hfound).
    { intros t Ht. apply Hapi. by right. }
    rewrite Hrun. exists found. split; [done|]. intros t. rewrite Hfound.
    destruct (decide (t0 = t)) as [->|Hne].
    + rewrite (decide_True (P := t ∈ t :: rest)) by (by left).
      destruct (measured client date t) as [value|].
      * rewrite lookup_insert_eq. by case_decide.
      * by case_decide.
    + assert (match measured client date t0 with
              | Some value => <[t0 := value]> available
              | None => available
              end !! t = available !! t) as ->.
      { destruct (measured client date t0); [by rewrite lookup_insert_ne|done]. }
      destruct (decide (t ∈ rest)) as [Hin|Hin].
      * by rewrite decide_True by (by right).
      * rewrite decide_False; [done|]. by intros [?|?]%elem_of_cons.
Qed.

Lemma measured_not_null client date t value :
  measured client date t = Some value -> value <> JNull.
Proof.
  unfold measured. repeat case_match; try done; by intros [= <-].
Qed.

(** X18.  When every request either is answered or fails with an
    [APIError] (of whatever status), [probe_body_types] asks for the
    four body types in order and returns, for each, the non-null value
    the service reports; a type that failed, or has no value, is just
    left out.  No null is returned. *)
Theorem probe_body_types_skips_api_errors client date :
  (forall t, t ∈ BODY_MEASUREMENT_TYPES -> fails_with_api_error_only client date t) ->
  exists available,
    probe_body_types client date =
      (Ret available, probe_endpoint date <$> BODY_MEASUREMENT_TYPES) /\
    (forall t,
       available !! t =
         if decide (t ∈ BODY_MEASUREMENT_TYPES) then measured client date t else None) /\
    (forall t value, available !! t = Some value -> value <> JNull).
Proof.
  intros Hapi. unfold probe_body_types.
  destruct (probe_spec client date BODY_MEASUREMENT_TYPES ∅ Hapi)
    as (found & Hrun & Hfound).
  assert (forall t,
            found !! t =
              if decide (t ∈ BODY_MEASUREMENT_TYPES)
              then measured client date t else None) as Hfound'.
  { intros t. rewrite Hfound, lookup_empty.
    case_decide; [|done]. by destruct (measured client date t). }
  exists found. split; [done|]. split; [done|].
  intros t value. rewrite Hfound'. case_decide; [|done].
  apply measured_not_null.
Qed.

(** X19.  When the request for a body type fails with an exception
    that is no [APIError] (an expired token, a timeout), and the types
    before it did not, [probe_body_types] raises that exception: the
    types after it are not asked for, and what was found is lost. *)
Theorem probe_body_types_stops_at_other_errors
    client date (before : list string) body_type (after : list string) e :
  BODY_MEASUREMENT_TYPES = before ++ body_type :: after ->
  (forall t, t ∈ before -> fails_with_api_error_only client date t) ->
  (get client (probe_endpoint date body_type) MAX_RETRIES).1 = Raise e ->
  (forall message status url, e <> APIError message status url) ->
  probe_body_types client date =
    (Raise e, probe_endpoint date <$> (before ++ [body_type])).
Proof.
  intros Hsplit Hbefore Hget Hother. unfold probe_body_types. rewrite Hsplit.
  clear Hsplit. generalize (∅ : gmap string json).
  induction before as [|t0 before IH]; intros available.
  - cbn [app probe]. fold (probe_endpoint date body_type). rewrite Hget.
    destruct e as [| m s u | | | | | |]; try done. by destruct (Hother m s u).
  - rewrite <- app_comm_cons, probe_goes_on by (apply Hbefore; by left).
    rewrite IH by (intros t Ht; apply Hbefore; by right). done.
Qed.

(** The token expires after the first probe. *)
Definition expiring : YazioClient :=
  {| base_url := BASE_URL;
     api_version := API_VERSION;
     session_get := fun url _ =>
       if str_contains "/body_fat/" url
       then Responded (Response 200 (Some (JObject [("value", JNumber "18.5")])))
       else Responded (Response 401 None) |}.

(** Body fat is known, waist is not found, the rest has no value. *)
Definition some_types : YazioClient :=
  {| base_url := BASE_URL;
     api_version := API_VERSION;
     session_get := fun url _ =>
       if str_contains "/body_fat/" url
       then Responded (Response 200 (Some (JObject [("value", JNumber "18.5")])))
       else if str_contains "/waist/" url
       then Responded (Response 404 None)
       else Responded (Response 200 (Some (JObject [("value", JNull)]))) |}.

Example probe_body_types_some_types :
  (probe_body_types some_types "2024-03-01").1 = Ret {["body_fat" := JNumber "18.5"]}.
Proof. vm_compute. reflexivity. Qed.

Lemma probe_body_types_skips_api_errors_witness :
  exists available,
    probe_body_types some_types "2024-03-01" =
      (Ret available, probe_endpoint "2024-03-01" <$> BODY_MEASUREMENT_TYPES) /\
    (forall t,
       available !! t =
         if decide (t ∈ BODY_MEASUREMENT_TYPES)
         then measured some_types "2024-03-01" t else None) /\
    (forall t value, available !! t = Some value -> value <> JNull).
Proof.
  apply (probe_body_types_skips_api_errors some_types "2024-03-01").
  intros t Ht e.
  repeat (apply elem_of_cons in Ht as [->|Ht]);
    [vm_compute; intros [= <-]; by do 3 eexists ..|by apply elem_of_nil in Ht].
Defined.

Lemma probe_body_types_stops_at_other_errors_witness :
  probe_body_types expiring "2024-03-01" =
    (Raise (AuthenticationError token_expired_message),
     probe_endpoint "2024-03-01" <$> (["body_fat"] ++ ["waist"])).
Proof.
  apply (probe_body_types_stops_at_other_errors expiring "2024-03-01"
           ["body_fat"] "waist" ["hip"; "chest"]
           (AuthenticationError token_expired_message)).
  - reflexivity.
  - intros t Ht e. apply elem_of_cons in Ht as [->|Ht];
      [vm_compute; intros [=]|by apply elem_of_nil in Ht].
  - vm_compute. reflexivity.
  - intros message status url. discriminate.
Defined.

(** X21.  [filter_null_values] returns the items of a JSON object
    whose value is not null (nothing for what is no object): no null is
    left, and filtering its result again changes nothing. *)
Theorem filter_null_values_is_idempotent (data : json) :
  Forall (fun kv => kv.2 <> JNull) (filter_null_values data) /\
  filter_null_values (JObject (filter_null_values data)) = filter_null_values data /\
  (forall items kv,
     data = JObject items ->
     kv ∈ filter_null_values data <-> kv ∈ items /\ kv.2 <> JNull).
Proof.
  assert (forall items : list (string * json),
            Forall (fun kv => kv.2 <> JNull)
                   (List.filter (fun kv => match kv.2 with JNull => false | _ => true end)
                                items)) as Hclean.
  { intros items. apply Forall_forall. intros kv.
    rewrite list_elem_of_In, filter_In. intros [_ Hkv] Hnull.
    by rewrite Hnull in Hkv. }
  split; [|split].
  - destruct data; cbn; try by constructor. apply Hclean.
  - destruct data; cbn; try done.
    specialize (Hclean items). induction Hclean as [|kv kept Hkv _ IH]; [done|].
    cbn. destruct kv.2 eqn:Hv; by rewrite ?IH.
  - intros items kv ->. cbn. rewrite !list_elem_of_In, filter_In.
    destruct kv as [k []]; cbn; intuition congruence.
Qed.

End ExportBodySpec.
